(** * ESP32-S3-WROOM SD/TF-Photograph: button-triggered capture to the TF card

    A shallow embedding of [ESP32-S3-WROOM-SDTF-Photograph.ino] and the
    properties of its event-to-artifact pipeline: the debounced poll loop
    ([loop]), the capture sequencer ([takePhoto]) and start-up ([setup]).

    The sketch talks to three outside parties: the button line, the camera
    driver and the card.  They are modelled as follows.
    - Time is a millisecond clock.  It advances by [delay], by the time a
      camera grab or a card write blocks (given by the capability's
      response), and by the idle gap between two calls of [loop].  Every
      other statement is instantaneous.
    - The button is a level over time, [btn : Z -> bool].
    - What the camera and the card answer during one call of [takePhoto]
      is a record of [Responses]; a session supplies one per capture.
    - Everything the sketch does to the outside is appended, with its time,
      to a log of [Event]s.
    - A loop that the source bounds only by its own logic is given a
      number of iterations it may take; running out is a result of its
      own, and the theorems show where it cannot happen. *)

From stdpp Require Import gmap strings pretty list.
From Stdlib Require Import ZArith Lia.
From Stdlib.Strings Require Import Byte.

Local Open Scope Z_scope.

(** ** Machine integers *)

Definition u32 (z : Z) : Z := z mod 2 ^ 32.

(** [a - b] on [uint32_t]. *)
Definition sub32 (a b : Z) : Z := u32 (a - b).

(** Conversion of an [unsigned long] to [int] (two's complement). *)
Definition to_int (z : Z) : Z :=
  let m := u32 z in if m <? 2 ^ 31 then m else m - 2 ^ 32.

(** ** Pin levels and user settings *)

Definition HIGH : bool := true.
Definition LOW : bool := false.

Record Config := {
  BUTTON_PIN : Z;
  DEBOUNCE_MS : Z;
  LED_PIN : Z
}.

(** The three [#define]s as the sketch ships them. *)
Definition sketch_config : Config :=
  {| BUTTON_PIN := 47; DEBOUNCE_MS := 40; LED_PIN := -1 |}.

(** ** Frames, capability responses, events *)

Record camera_fb_t := { buf : list byte }.

Definition len (fb : camera_fb_t) : nat := length (buf fb).

(** What the card and the camera answer at start-up. *)
Record Startup := {
  mount_ok : bool;        (* does the card mount *)
  mkdir_ok : bool;        (* can /camera be made or found *)
  psram : bool;           (* psramFound() *)
  camera_init_ok : bool   (* esp_camera_init(&cfg) == ESP_OK *)
}.

Record Responses := {
  fb_get : option camera_fb_t;  (* what esp_camera_fb_get() yields *)
  grab_ms : nat;                (* how long the grab blocks *)
  count_ok : bool;              (* does the directory count query succeed *)
  open_ok : bool;               (* does SD_MMC.open succeed *)
  write_n : nat;                (* how many bytes the card accepts *)
  flush_ok : bool;              (* does the flush reach the card *)
  store_ms : nat                (* how long the write blocks *)
}.

Inductive PinKind := OUTPUT | INPUT_PULLUP.

(** The part of [camera_config_t] that [cameraSetup] decides (the pin
    table is board data). *)
Record camera_config_t := {
  xclk_freq_hz : Z;
  pixel_format : string;
  frame_size : string;
  jpeg_quality : Z;
  fb_count : Z;
  fb_location : string;
  grab_mode : string
}.

Inductive Event :=
| SerialBegin (baud : Z)
| PinMode (pin : Z) (kind : PinKind)
| DigitalWrite (pin : Z) (level : bool)
| DigitalRead (pin : Z) (level : bool)
| FbGet (got : bool)
| FbReturn
| ReadFileNum (dir : string) (res : Z)
| Open (path : string) (ok : bool)
| Write (path : string) (data : list byte) (accepted : nat)
| Flush (path : string) (ok : bool)
| Close (path : string)
| Println (msg : string)
| Printf (fmt arg : string)
| WdtReset
| SdmmcInit (ok : bool)
| CreateDir (path : string) (ok : bool)
| CameraInit (c : camera_config_t) (ok : bool)
| SensorTune (knob : string) (value : Z).

(** ** The world the sketch runs in *)

Record World := {
  clock : Z;                      (* milliseconds since boot, not wrapped *)
  pins : gmap Z bool;             (* levels driven by digitalWrite *)
  card : gmap string (list byte); (* entries of /camera, by path *)
  fb_held : nat;                  (* frame buffers handed out by the driver *)
  shots : nat;                    (* calls of takePhoto so far *)
  log : list (Z * Event)          (* what was done, and when; oldest first *)
}.

Definition boot : World :=
  {| clock := 0; pins := ∅; card := ∅; fb_held := 0; shots := 0; log := [] |}.

Definition emit (e : Event) (w : World) : World :=
  {| clock := clock w; pins := pins w; card := card w; fb_held := fb_held w;
     shots := shots w; log := log w ++ [(clock w, e)] |}.

Definition elapse (ms : Z) (w : World) : World :=
  {| clock := clock w + ms; pins := pins w; card := card w;
     fb_held := fb_held w; shots := shots w; log := log w |}.

Definition set_pin (pin : Z) (level : bool) (w : World) : World :=
  {| clock := clock w; pins := <[pin := level]> (pins w); card := card w;
     fb_held := fb_held w; shots := shots w; log := log w |}.

Definition set_card (c : gmap string (list byte)) (w : World) : World :=
  {| clock := clock w; pins := pins w; card := c; fb_held := fb_held w;
     shots := shots w; log := log w |}.

Definition set_fb_held (n : nat) (w : World) : World :=
  {| clock := clock w; pins := pins w; card := card w; fb_held := n;
     shots := shots w; log := log w |}.

Definition count_shot (w : World) : World :=
  {| clock := clock w; pins := pins w; card := card w; fb_held := fb_held w;
     shots := S (shots w); log := log w |}.

(** What happened between [w0] and a later world [w1], with and without
    the times. *)
Definition since_t (w0 w1 : World) : list (Z * Event) :=
  drop (length (log w0)) (log w1).

Definition since (w0 w1 : World) : list Event := (since_t w0 w1).*2.

(** ** Arduino core *)

Definition millis (w : World) : Z := u32 (clock w).

Definition delay (ms : Z) (w : World) : World := elapse (u32 ms) w.

Definition pinMode (pin : Z) (kind : PinKind) (w : World) : World :=
  emit (PinMode pin kind) w.

Definition Serial_begin (baud : Z) (w : World) : World :=
  emit (SerialBegin baud) w.

Definition digitalWrite (pin : Z) (level : bool) (w : World) : World :=
  emit (DigitalWrite pin level) (set_pin pin level w).

Definition Serial_println (msg : string) (w : World) : World :=
  emit (Println msg) w.

Definition Serial_printf (fmt arg : string) (w : World) : World :=
  emit (Printf fmt arg) w.

Definition esp_task_wdt_reset (w : World) : World := emit WdtReset w.

(** ** Camera driver *)

Definition esp_camera_fb_get (r : Responses) (w : World)
  : option camera_fb_t * World :=
  let w := elapse (Z.of_nat (grab_ms r)) w in
  match fb_get r with
  | Some fb => (Some fb, emit (FbGet true) (set_fb_held (S (fb_held w)) w))
  | None => (None, emit (FbGet false) w)
  end.

Definition esp_camera_fb_return (w : World) : World :=
  emit FbReturn (set_fb_held (pred (fb_held w)) w).

(** ** Card *)

(** Modelled from the spec: [readFileNum] lives in [sd_read_write.h], which
    is not part of the sources.  The spec describes it as the storage
    capability's "count existing entries in directory" query, which yields
    an integer or an error; the sketch takes a negative result as the
    error. *)
Definition readFileNum (r : Responses) (dir : string) (w : World)
  : Z * World :=
  let n := if count_ok r then Z.of_nat (size (card w)) else -1 in
  (n, emit (ReadFileNum dir n) w).

(** [SD_MMC.open(path, FILE_WRITE)]: creates the entry or truncates it. *)
Definition SD_MMC_open (r : Responses) (path : string) (w : World)
  : bool * World :=
  if open_ok r
  then (true, emit (Open path true) (set_card (<[path := []]> (card w)) w))
  else (false, emit (Open path false) w).

(** [f.write(buf, len)]: the card keeps the bytes it accepts. *)
Definition File_write (r : Responses) (path : string) (data : list byte)
    (w : World) : World :=
  let n := Nat.min (write_n r) (length data) in
  let w := elapse (Z.of_nat (store_ms r)) w in
  emit (Write path data n) (set_card (<[path := take n data]> (card w)) w).

Definition File_flush (r : Responses) (path : string) (w : World) : World :=
  emit (Flush path (flush_ok r)) w.

Definition File_close (path : string) (w : World) : World :=
  emit (Close path) w.

(** Modelled from the spec: [sdmmcInit] and [createDir] live in
    [sd_read_write.h], which is not part of the sources.  The spec names
    them "storage mount" and "directory-ensure for the capture target
    directory"; the sketch calls both as statements and receives nothing
    back. *)
Definition sdmmcInit (st : Startup) (w : World) : World :=
  emit (SdmmcInit (mount_ok st)) w.

Definition createDir (st : Startup) (path : string) (w : World) : World :=
  emit (CreateDir path (mount_ok st && mkdir_ok st)) w.

(** ** What a capture reports

    [takePhoto] returns [void]; what it found is what it prints on the
    serial line. *)

Inductive Status := Success (path : string) | SensorFault | StorageFault.

Definition verdict (e : Event) : option Status :=
  match e with
  | Println msg =>
      if String.eqb msg "Capture failed" then Some SensorFault
      else if String.eqb msg "File open failed" then Some StorageFault
      else None
  | Printf fmt arg =>
      if String.eqb fmt "Saved: %s\n" then Some (Success arg) else None
  | _ => None
  end.

Definition report (evs : list Event) : option Status :=
  head (omap verdict evs).

Section Sketch.

Context (cfg : Config).

(** ** LED helpers *)

Definition ledSetup (w : World) : World :=
  if 0 <=? LED_PIN cfg
  then digitalWrite (LED_PIN cfg) HIGH (pinMode (LED_PIN cfg) OUTPUT w)
  else w.

Definition ledOn (w : World) : World :=
  if 0 <=? LED_PIN cfg then digitalWrite (LED_PIN cfg) LOW w else w.

Definition ledOff (w : World) : World :=
  if 0 <=? LED_PIN cfg then digitalWrite (LED_PIN cfg) HIGH w else w.

(** ** takePhoto *)

(** The index the capture settles on, given the result of the count query
    and the clock at that moment: [if (idx < 0) idx = millis();]. *)
Definition file_index (n : Z) (w : World) : Z :=
  if n <? 0 then to_int (millis w) else n.

(** ["/camera/" + String(idx) + ".jpg"] *)
Definition file_path (idx : Z) : string :=
  "/camera/" +:+ pretty idx +:+ ".jpg".

Definition takePhoto (r : Responses) (w : World) : World :=
  let w := ledOn w in
  let (fb, w) := esp_camera_fb_get r w in
  match fb with
  | None => ledOff (Serial_println "Capture failed" w)
  | Some fb =>
      let (n, w) := readFileNum r "/camera" w in
      let idx := file_index n w in
      let path := file_path idx in
      let (f, w) := SD_MMC_open r path w in
      if negb f
      then ledOff (esp_camera_fb_return (Serial_println "File open failed" w))
      else
        let w := File_write r path (take (len fb) (buf fb)) w in
        let w := File_flush r path w in
        let w := File_close path w in
        let w := esp_camera_fb_return w in
        let w := Serial_printf "Saved: %s\n" path w in
        ledOff w
  end.

(** ** The poll loop *)

Context (btn : Z -> bool) (script : nat -> Responses).

(** The button line is driven from outside: a read returns its level at
    the time of the read. *)
Definition digitalRead (pin : Z) (w : World) : bool * World :=
  let v := btn (clock w) in (v, emit (DigitalRead pin v) w).

(** The two function-local statics of [loop]. *)
Record Statics := { last : bool; edge : Z }.

Definition statics_init : Statics := {| last := HIGH; edge := 0 |}.

(** [while (digitalRead(BUTTON_PIN) == LOW) { ... }], with the number of
    iterations it may still take; [None] when that number is used up. *)
Fixpoint wait_release (fuel : nat) (t0 : Z) (w : World) : option World :=
  match fuel with
  | O => None
  | S fuel' =>
      let (lv, w) := digitalRead (BUTTON_PIN cfg) w in
      if negb (Bool.eqb lv LOW) then Some w
      else
        let w := esp_task_wdt_reset w in
        if sub32 (millis w) t0 >? 2000 then Some w
        else wait_release fuel' t0 (delay 5 w)
  end.

(** Iterations granted to the wait; [wait_release_total] shows they are
    never used up. *)
Definition wait_fuel : nat := 402.

Definition loop (s : Statics) (w : World) : option (Statics * World) :=
  let (now, w) := digitalRead (BUTTON_PIN cfg) w in
  let edge1 :=
    if Bool.eqb (last s) HIGH && Bool.eqb now LOW then millis w else edge s in
  if Bool.eqb (last s) LOW && Bool.eqb now LOW
     && (sub32 (millis w) edge1 >? u32 (DEBOUNCE_MS cfg))
  then
    let w := takePhoto (script (shots w)) (count_shot w) in
    let t0 := millis w in
    match wait_release wait_fuel t0 w with
    | None => None
    | Some w =>
        let w := delay (DEBOUNCE_MS cfg) w in
        Some ({| last := now; edge := edge1 |}, w)
    end
  else Some ({| last := now; edge := edge1 |}, w).

(** The Arduino core calls [loop] over and over; [gaps] gives, for each
    call, the idle time that passed before it. *)
Fixpoint run (gaps : list nat) (s : Statics) (w : World)
  : option (Statics * World) :=
  match gaps with
  | [] => Some (s, w)
  | g :: gaps' =>
      match loop s (elapse (Z.of_nat g) w) with
      | None => None
      | Some (s', w') => run gaps' s' w'
      end
  end.

(** ** Start-up *)

(** The configuration [cameraSetup] hands to the driver: the defaults,
    raised when there is PSRAM. *)
Definition camera_cfg (st : Startup) : camera_config_t :=
  let c := {| xclk_freq_hz := 20000000;
              pixel_format := "PIXFORMAT_JPEG";
              frame_size := "FRAMESIZE_SVGA";
              jpeg_quality := 12;
              fb_count := 1;
              fb_location := "CAMERA_FB_IN_PSRAM";
              grab_mode := "CAMERA_GRAB_WHEN_EMPTY" |} in
  if psram st
  then {| xclk_freq_hz := xclk_freq_hz c;
          pixel_format := pixel_format c;
          frame_size := frame_size c;
          jpeg_quality := 10;
          fb_count := 2;
          fb_location := fb_location c;
          grab_mode := "CAMERA_GRAB_LATEST" |}
  else c.

Definition cameraSetup (st : Startup) (w : World) : bool * World :=
  let w := emit (CameraInit (camera_cfg st) (camera_init_ok st)) w in
  if negb (camera_init_ok st) then (false, w)
  else
    let w := emit (SensorTune "vflip" 1) w in
    let w := emit (SensorTune "brightness" 1) w in
    let w := emit (SensorTune "saturation" 0) w in
    let w := emit (SensorTune "whitebal" 1) w in
    let w := emit (SensorTune "awb_gain" 1) w in
    let w := emit (SensorTune "wb_mode" 0) w in
    (true, w).

(** [turns] iterations of
    [while (true) { ledOn(); delay(100); ledOff(); delay(100); }]. *)
Fixpoint blink (turns : nat) (w : World) : World :=
  match turns with
  | O => w
  | S turns' => blink turns' (delay 100 (ledOff (delay 100 (ledOn w))))
  end.

(** Where [setup] is after the blink loop, if entered, has gone round
    [turns] times: back at its caller, or still inside the loop. *)
Inductive Outcome := Returned (w : World) | Spinning (w : World).

Definition setup (st : Startup) (turns : nat) (w : World) : Outcome :=
  let w := Serial_begin 2000000 w in
  let w := pinMode (BUTTON_PIN cfg) INPUT_PULLUP w in
  let w := ledOn (ledSetup w) in
  let w := sdmmcInit st w in
  let w := createDir st "/camera" w in
  let (ok, w) := cameraSetup st w in
  if negb ok
  then Spinning (blink turns (Serial_println "Camera init FAILED" w))
  else Returned (Serial_println "Setup done, ready for button." (ledOff w)).

(** The Arduino core: [setup] once, then [loop] for ever. *)
Inductive Phase := InSetup (w : World) | InLoop (s : Statics) (w : World).

Definition sketch (st : Startup) (turns : nat) (gaps : list nat) (w : World)
  : option Phase :=
  match setup st turns w with
  | Spinning w => Some (InSetup w)
  | Returned w =>
      match run gaps statics_init w with
      | Some (s, w) => Some (InLoop s w)
      | None => None
      end
  end.

End Sketch.

(** ** Sessions of captures *)

(** What one call of [takePhoto] reports. *)
Definition status (cfg : Config) (r : Responses) (w : World) : option Status :=
  report (since w (takePhoto cfg r w)).

(** Consecutive captures without a restart; each comes with the time that
    passed since the previous one returned. *)
Fixpoint session (cfg : Config) (steps : list (nat * Responses)) (w : World)
  : list (option Status) * World :=
  match steps with
  | [] => ([], w)
  | (g, r) :: steps' =>
      let w0 := elapse (Z.of_nat g) w in
      let (sts, w') := session cfg steps' (takePhoto cfg r w0) in
      (status cfg r w0 :: sts, w')
  end.

(** ** Observations used in the statements *)

(** What the count query returns in [w]. *)
Definition count_result (r : Responses) (w : World) : Z :=
  if count_ok r then Z.of_nat (size (card w)) else -1.

(** The path a capture that starts in [w] derives: the count is taken, and
    the clock is read, once the grab has returned. *)
Definition target_path (r : Responses) (w : World) : string :=
  file_path (file_index (count_result r w) (elapse (Z.of_nat (grab_ms r)) w)).

(** What [ledOn] and [ledOff] do to the outside. *)
Definition led_events (cfg : Config) (level : bool) : list Event :=
  if 0 <=? LED_PIN cfg then [DigitalWrite (LED_PIN cfg) level] else [].

(** The events of one capture, path by path. *)
Definition capture_events (r : Responses) (w : World) : list Event :=
  match fb_get r with
  | None => [FbGet false; Println "Capture failed"]
  | Some fb =>
      let p := target_path r w in
      FbGet true :: ReadFileNum "/camera" (count_result r w) ::
      if open_ok r
      then [Open p true;
            Write p (buf fb) (Nat.min (write_n r) (len fb));
            Flush p (flush_ok r); Close p; FbReturn;
            Printf "Saved: %s\n" p]
      else [Open p false; Println "File open failed"; FbReturn]
  end.

Definition is_file_op (e : Event) : bool :=
  match e with
  | Open _ _ | Write _ _ _ | Flush _ _ | Close _ => true
  | _ => false
  end.

Definition is_storage_op (e : Event) : bool :=
  match e with
  | ReadFileNum _ _ | Open _ _ | Write _ _ _ | Flush _ _ | Close _ => true
  | _ => false
  end.

Definition is_fb_return (e : Event) : bool :=
  match e with FbReturn => true | _ => false end.

Definition is_write_or_later (e : Event) : bool :=
  match e with
  | Write _ _ _ | Flush _ _ | Close _ | FbReturn => true
  | _ => false
  end.

Definition is_wdt_reset (e : Event) : bool :=
  match e with WdtReset => true | _ => false end.

Definition is_button_read (e : Event) : bool :=
  match e with DigitalRead _ _ => true | _ => false end.

(** The indicator shows idle: its line, if there is one, is driven high. *)
Definition indicator_idle (cfg : Config) (w : World) : Prop :=
  0 <= LED_PIN cfg -> pins w !! LED_PIN cfg = Some HIGH.

(** ** Sample inputs *)

Definition frame3 : camera_fb_t := {| buf := [x01; x02; x03]%byte |}.

(** Camera and card both answer. *)
Definition all_well : Responses :=
  {| fb_get := Some frame3; grab_ms := 30; count_ok := true; open_ok := true;
     write_n := 3; flush_ok := true; store_ms := 20 |}.

(** The card opens the file, then takes no byte and fails the flush. *)
Definition card_full : Responses :=
  {| fb_get := Some frame3; grab_ms := 30; count_ok := true; open_ok := true;
     write_n := 0; flush_ok := false; store_ms := 20 |}.

(** The camera yields no frame. *)
Definition no_frame : Responses :=
  {| fb_get := None; grab_ms := 30; count_ok := true; open_ok := true;
     write_n := 3; flush_ok := true; store_ms := 20 |}.

(** A configuration with an indicator on line 2. *)
Definition with_led : Config :=
  {| BUTTON_PIN := 47; DEBOUNCE_MS := 40; LED_PIN := 2 |}.

(** The log of [k] rounds of the wait for release in which the line read
    pressed, the first of them at time [t]: each round reads the line and
    resets the watchdog, and the next one is five milliseconds later. *)
Fixpoint wait_rounds (pin : Z) (t : Z) (k : nat) : list (Z * Event) :=
  match k with
  | O => []
  | S k' =>
      (t, DigitalRead pin LOW) :: (t, WdtReset) :: wait_rounds pin (t + 5) k'
  end.

(** The button held down for good. *)
Definition stuck_low : Z -> bool := fun _ => LOW.

(** The times at which [loop] is called when it is first called [gaps]
    apart, starting from time [t]. *)
Fixpoint sample_times (t : Z) (gaps : list nat) : list Z :=
  match gaps with
  | [] => []
  | g :: gaps' => (t + Z.of_nat g) :: sample_times (t + Z.of_nat g) gaps'
  end.

(** The time a series of gaps spans. *)
Definition span (gaps : list nat) : Z := Z.of_nat (sum_list gaps).

(** A poll at [t] reads pressed, no later than [d] after time [t0]. *)
Definition pressed_within (btn : Z -> bool) (t0 d t : Z) : Prop :=
  btn t = LOW /\ t - t0 <= d.

(** One press: the line is low from [p] up to, not including, [q]. *)
Definition press (p q : Z) : Z -> bool :=
  fun t => negb ((p <=? t) && (t <? q)).

(** [n] polls, one millisecond apart. *)
Definition every_ms (n : nat) : list nat := replicate n 1%nat.

(** The number of captures taken by the end of a run. *)
Definition shots_after (o : option (Statics * World)) : option nat :=
  match o with Some (_, w) => Some (shots w) | None => None end.

Definition is_fb_get (e : Event) : bool :=
  match e with FbGet _ => true | _ => false end.

(** The times at which the events picked by [f] happened. *)
Definition times_of (f : Event -> bool) (w : World) : list Z :=
  (List.filter (fun te => f te.2) (log w)).*1.

(** What [ledSetup] does to the outside. *)
Definition led_setup_events (cfg : Config) : list Event :=
  if 0 <=? LED_PIN cfg
  then [PinMode (LED_PIN cfg) OUTPUT; DigitalWrite (LED_PIN cfg) HIGH]
  else [].

(** What [setup] does up to the point where it finds the camera dead. *)
Definition failed_setup_events (cfg : Config) (st : Startup) : list Event :=
  [SerialBegin 2000000; PinMode (BUTTON_PIN cfg) INPUT_PULLUP]
  ++ led_setup_events cfg ++ led_events cfg LOW
  ++ [SdmmcInit (mount_ok st);
      CreateDir "/camera" (mount_ok st && mkdir_ok st);
      CameraInit (camera_cfg st) false;
      Println "Camera init FAILED"].

(** One round of the blink loop. *)
Definition blink_events (cfg : Config) : list Event :=
  led_events cfg LOW ++ led_events cfg HIGH.

(** The card fails to mount and the directory cannot be made, the camera
    comes up. *)
Definition card_missing : Startup :=
  {| mount_ok := false; mkdir_ok := false; psram := true;
     camera_init_ok := true |}.

(** Card and directory are there, the camera does not come up. *)
Definition camera_dead : Startup :=
  {| mount_ok := true; mkdir_ok := true; psram := true;
     camera_init_ok := false |}.

(** The paths of the captures that were reported as stored. *)
Definition success_path (st : option Status) : option string :=
  match st with Some (Success p) => Some p | _ => None end.

Definition paths (sts : list (option Status)) : list string :=
  omap success_path sts.

(** No entry of the card is numbered at or above the number of entries:
    the next count is a free number, as on a card that holds [0.jpg] to
    [(n-1).jpg]. *)
Definition numbered_below_count (c : gmap string (list byte)) : Prop :=
  forall k : Z, Z.of_nat (size c) <= k -> c !! file_path k = None.

(** A card used before, on which [0.jpg] was deleted and [1.jpg] kept. *)
Definition stale_card : World :=
  set_card {[ "/camera/1.jpg" := [x00]%byte ]} boot.

(** The count query fails for this capture. *)
Definition count_fails : Responses :=
  {| fb_get := Some frame3; grab_ms := 30; count_ok := false; open_ok := true;
     write_n := 3; flush_ok := true; store_ms := 20 |}.

(** A card that holds [0.jpg] to [(n-1).jpg]. *)
Definition used_card (n : nat) : World :=
  set_card (list_to_map ((fun k => (file_path (Z.of_nat k), [x00]%byte))
                           <$> seq 0 n)) boot.

(** Whether a call of [loop] with statics [s] in world [w] takes a photo:
    the previous poll and this one read pressed, and more than
    [DEBOUNCE_MS] have passed on the 32-bit counter since the recorded
    edge. *)
Definition fires (cfg : Config) (btn : Z -> bool) (s : Statics) (w : World)
  : bool :=
  negb (last s) && negb (btn (clock w))
  && (sub32 (millis w) (edge s) >? u32 (DEBOUNCE_MS cfg)).

(** How long the capture with responses [r] blocks at most. *)
Definition busy_ms (r : Responses) : Z :=
  Z.of_nat (grab_ms r) + Z.of_nat (store_ms r).

(** The card refuses the open. *)
Definition open_fails : Responses :=
  {| fb_get := Some frame3; grab_ms := 30; count_ok := true; open_ok := false;
     write_n := 3; flush_ok := true; store_ms := 20 |}.

(** The card takes two of the three bytes. *)
Definition short_write : Responses :=
  {| fb_get := Some frame3; grab_ms := 30; count_ok := true; open_ok := true;
     write_n := 2; flush_ok := true; store_ms := 20 |}.

(** The statics after a poll at time 0 recorded the edge of a press. *)
Definition pressed_at_0 : Statics := {| last := LOW; edge := 0 |}.

(** How long the capture with responses [r] takes: the grab, and the
    write when it gets that far. *)
Definition capture_ms (r : Responses) : Z :=
  Z.of_nat (grab_ms r)
  + match fb_get r with
    | Some _ => if open_ok r then Z.of_nat (store_ms r) else 0
    | None => 0
    end.

(** How long a session takes, gaps and captures together. *)
Fixpoint session_ms (steps : list (nat * Responses)) : Z :=
  match steps with
  | [] => 0
  | (g, r) :: steps' => Z.of_nat g + capture_ms r + session_ms steps'
  end.

(** The indices the clock hands out during a session that starts at time
    [t]: one for each capture that gets a frame and whose count query
    fails, read when its grab has returned. *)
Fixpoint fallback_indices (t : Z) (steps : list (nat * Responses)) : list Z :=
  match steps with
  | [] => []
  | (g, r) :: steps' =>
      match fb_get r with
      | Some _ =>
          if count_ok r then []
          else [to_int (t + Z.of_nat g + Z.of_nat (grab_ms r))]
      | None => []
      end
      ++ fallback_indices (t + Z.of_nat g + capture_ms r) steps'
  end.

(** The numbers a session can use, seen from the world it has reached:
    either a number the count still has to hand out, or a reading of the
    clock taken later, whose index lies outside the numbers of the
    count. *)
Definition index_of_session (lo hi : Z) (steps : list (nat * Responses))
    (w : World) (k : Z) : Prop :=
  Z.of_nat (size (card w)) <= k < hi
  \/ exists m, k = to_int m
               /\ clock w < m <= clock w + session_ms steps
               /\ (k < lo \/ hi <= k).

(** * Properties *)

(** ** The log *)

Lemma since_t_app (w0 w1 : World) (l : list (Z * Event)) :
  log w1 = log w0 ++ l -> since_t w0 w1 = l.
Proof.
  intros E. unfold since_t. rewrite E. apply drop_app_length.
Qed.

Lemma since_app (w0 w1 : World) (l : list (Z * Event)) :
  log w1 = log w0 ++ l -> since w0 w1 = l.*2.
Proof.
  intros E. unfold since. by rewrite (since_t_app _ _ _ E).
Qed.

Lemma take_len (fb : camera_fb_t) : take (len fb) (buf fb) = buf fb.
Proof. unfold len. apply firstn_all. Qed.

(** ** One capture, event by event *)

Ltac unfold_capture :=
  unfold takePhoto, ledOn, ledOff, esp_camera_fb_get, readFileNum,
    SD_MMC_open, File_write, File_flush, File_close, esp_camera_fb_return,
    Serial_println, Serial_printf, digitalWrite.

Lemma takePhoto_events (cfg : Config) (r : Responses) (w : World) :
  since w (takePhoto cfg r w)
  = led_events cfg LOW ++ capture_events r w ++ led_events cfg HIGH.
Proof.
  unfold led_events, capture_events, target_path, count_result.
  unfold_capture.
  destruct (0 <=? LED_PIN cfg), (fb_get r) as [fb|], (open_ok r); cbn -[file_path file_index];
    rewrite ?take_len;
    (erewrite since_app; [|cbn -[file_path file_index]; rewrite <- ?app_assoc; reflexivity]);
    reflexivity.
Qed.

(** What one capture leaves on the card. *)
Lemma takePhoto_card (cfg : Config) (r : Responses) (w : World) :
  card (takePhoto cfg r w)
  = match fb_get r with
    | None => card w
    | Some fb =>
        if open_ok r
        then <[target_path r w :=
                 take (Nat.min (write_n r) (len fb)) (buf fb)]> (card w)
        else card w
    end.
Proof.
  unfold target_path, count_result. unfold_capture.
  destruct (0 <=? LED_PIN cfg), (fb_get r) as [fb|], (open_ok r);
    cbn -[file_path file_index]; rewrite ?take_len, ?insert_insert_eq;
    reflexivity.
Qed.

Lemma takePhoto_fb_held (cfg : Config) (r : Responses) (w : World) :
  fb_held (takePhoto cfg r w) = fb_held w.
Proof.
  unfold_capture.
  destruct (0 <=? LED_PIN cfg), (fb_get r) as [fb|], (open_ok r); reflexivity.
Qed.

Lemma takePhoto_shots (cfg : Config) (r : Responses) (w : World) :
  shots (takePhoto cfg r w) = shots w.
Proof.
  unfold_capture.
  destruct (0 <=? LED_PIN cfg), (fb_get r) as [fb|], (open_ok r); reflexivity.
Qed.

(** A capture takes as long as the camera and the card block, no more. *)
Lemma takePhoto_clock (cfg : Config) (r : Responses) (w : World) :
  clock (takePhoto cfg r w)
  = clock w + Z.of_nat (grab_ms r)
    + match fb_get r with
      | Some _ => if open_ok r then Z.of_nat (store_ms r) else 0
      | None => 0
      end.
Proof.
  unfold_capture.
  destruct (0 <=? LED_PIN cfg), (fb_get r) as [fb|], (open_ok r); cbn; lia.
Qed.

Lemma filter_led_events (cfg : Config) (lv : bool) (f : Event -> bool) :
  (forall pin l, f (DigitalWrite pin l) = false) ->
  List.filter f (led_events cfg lv) = [].
Proof.
  intros Hf. unfold led_events. destruct (0 <=? LED_PIN cfg); cbn; [|done].
  by rewrite Hf.
Qed.

Lemma report_led_events (cfg : Config) (lv : bool) (l : list Event) :
  report (led_events cfg lv ++ l) = report l.
Proof. unfold led_events. by destruct (0 <=? LED_PIN cfg). Qed.

(** What a capture reports, path by path. *)
Lemma status_cases (cfg : Config) (r : Responses) (w : World) :
  status cfg r w
  = Some match fb_get r with
         | None => SensorFault
         | Some _ =>
             if open_ok r then Success (target_path r w) else StorageFault
         end.
Proof.
  unfold status. rewrite takePhoto_events, report_led_events.
  unfold capture_events.
  destruct (fb_get r) as [fb|], (open_ok r); reflexivity.
Qed.

(** ** Claims about one capture *)

(** C1. Whenever a capture gets as far as the file (a frame was acquired
    and the open succeeded), what it does to the file is exactly: open,
    write the whole frame payload, flush, close, in this order.  The flush
    comes before the close and the close follows whatever the flush
    answered. *)
Theorem write_flush_close_in_order
    (cfg : Config) (r : Responses) (w : World) (fb : camera_fb_t) :
  fb_get r = Some fb ->
  open_ok r = true ->
  List.filter is_file_op (since w (takePhoto cfg r w))
  = [Open (target_path r w) true;
     Write (target_path r w) (buf fb) (Nat.min (write_n r) (len fb));
     Flush (target_path r w) (flush_ok r);
     Close (target_path r w)].
Proof.
  intros Hfb Hopen. rewrite takePhoto_events, !List.filter_app.
  rewrite !filter_led_events by done.
  unfold capture_events. rewrite Hfb, Hopen. reflexivity.
Qed.

Lemma write_flush_close_in_order_witness :
  fb_get card_full = Some frame3
  /\ open_ok card_full = true
  /\ List.filter is_file_op (since boot (takePhoto with_led card_full boot))
     = [Open "/camera/0.jpg" true;
        Write "/camera/0.jpg" [x01; x02; x03]%byte 0;
        Flush "/camera/0.jpg" false;
        Close "/camera/0.jpg"].
Proof.
  split; [reflexivity|]. split; [reflexivity|].
  apply (write_flush_close_in_order with_led card_full boot frame3);
    reflexivity.
Defined.

(** C2. A capture gives the frame buffer back exactly once when it acquired
    one, on each of its exits, and makes no release call when it acquired
    none; the number of buffers out of the driver is what it was. *)
Theorem frame_released_exactly_once
    (cfg : Config) (r : Responses) (w : World) :
  length (List.filter is_fb_return (since w (takePhoto cfg r w)))
  = match fb_get r with Some _ => 1%nat | None => 0%nat end
  /\ fb_held (takePhoto cfg r w) = fb_held w.
Proof.
  split; [|apply takePhoto_fb_held].
  rewrite takePhoto_events, !List.filter_app.
  rewrite !filter_led_events by done.
  unfold capture_events.
  destruct (fb_get r) as [fb|], (open_ok r); reflexivity.
Qed.

(** C9. On the success path the file is closed before the frame buffer is
    given back: from the write on, the capture does write, flush, close,
    release, in this order. *)
Theorem close_before_release
    (cfg : Config) (r : Responses) (w : World) (fb : camera_fb_t) :
  fb_get r = Some fb ->
  open_ok r = true ->
  List.filter is_write_or_later (since w (takePhoto cfg r w))
  = [Write (target_path r w) (buf fb) (Nat.min (write_n r) (len fb));
     Flush (target_path r w) (flush_ok r);
     Close (target_path r w);
     FbReturn].
Proof.
  intros Hfb Hopen. rewrite takePhoto_events, !List.filter_app.
  rewrite !filter_led_events by done.
  unfold capture_events. rewrite Hfb, Hopen. reflexivity.
Qed.

Lemma close_before_release_witness :
  fb_get all_well = Some frame3
  /\ open_ok all_well = true
  /\ List.filter is_write_or_later
       (since boot (takePhoto sketch_config all_well boot))
     = [Write "/camera/0.jpg" [x01; x02; x03]%byte 3;
        Flush "/camera/0.jpg" true;
        Close "/camera/0.jpg";
        FbReturn].
Proof.
  split; [reflexivity|]. split; [reflexivity|].
  apply (close_before_release sketch_config all_well boot frame3);
    reflexivity.
Defined.

(** Every capture ends with [ledOff]: a configured indicator is left
    idle. *)
Lemma takePhoto_indicator_idle (cfg : Config) (r : Responses) (w : World) :
  indicator_idle cfg (takePhoto cfg r w).
Proof.
  intros Hled. apply Z.leb_le in Hled. unfold_capture. rewrite Hled.
  destruct (fb_get r) as [fb|], (open_ok r); cbn; apply lookup_insert_eq.
Qed.

(** C7. When the camera yields no frame the capture does nothing further:
    it logs the failure and switches the indicator back to idle.  No call
    goes to the card (no count query, no open, no write), the card is as
    it was, and the report is [SensorFault]. *)
Theorem no_frame_no_storage (cfg : Config) (r : Responses) (w : World) :
  fb_get r = None ->
  since w (takePhoto cfg r w)
  = led_events cfg LOW ++ [FbGet false; Println "Capture failed"]
    ++ led_events cfg HIGH
  /\ List.filter is_storage_op (since w (takePhoto cfg r w)) = []
  /\ card (takePhoto cfg r w) = card w
  /\ indicator_idle cfg (takePhoto cfg r w)
  /\ status cfg r w = Some SensorFault.
Proof.
  intros Hfb. rewrite status_cases, takePhoto_card, takePhoto_events.
  unfold capture_events. rewrite Hfb.
  repeat split; [|apply takePhoto_indicator_idle].
  rewrite !List.filter_app, !filter_led_events by done. reflexivity.
Qed.

Lemma no_frame_no_storage_witness :
  fb_get no_frame = None
  /\ since boot (takePhoto with_led no_frame boot)
     = [DigitalWrite 2 LOW; FbGet false; Println "Capture failed";
        DigitalWrite 2 HIGH]
  /\ List.filter is_storage_op (since boot (takePhoto with_led no_frame boot))
     = []
  /\ card (takePhoto with_led no_frame boot) = card boot
  /\ indicator_idle with_led (takePhoto with_led no_frame boot)
  /\ status with_led no_frame boot = Some SensorFault.
Proof.
  split; [reflexivity|].
  apply (no_frame_no_storage with_led no_frame boot). reflexivity.
Defined.

(** C10. The indicator configuration does not reach the result of a
    capture: under the same camera and card responses, a run with an
    indicator line and a run without one ([LED_PIN = -1], where [ledOn]
    and [ledOff] do nothing) report the same status and leave the same
    files with the same contents. *)
Theorem indicator_does_not_interfere
    (cfg1 cfg2 : Config) (r : Responses) (w : World) :
  0 <= LED_PIN cfg1 ->
  LED_PIN cfg2 = -1 ->
  status cfg1 r w = status cfg2 r w
  /\ card (takePhoto cfg1 r w) = card (takePhoto cfg2 r w)
  /\ List.filter is_storage_op (since w (takePhoto cfg1 r w))
     = List.filter is_storage_op (since w (takePhoto cfg2 r w))
  /\ pins (takePhoto cfg2 r w) = pins w.
Proof.
  intros _ Hoff. rewrite !status_cases, !takePhoto_card, !takePhoto_events.
  rewrite !List.filter_app, !filter_led_events by done.
  repeat split.
  unfold_capture. rewrite Hoff. cbn.
  destruct (fb_get r) as [fb|], (open_ok r); reflexivity.
Qed.

Lemma indicator_does_not_interfere_witness :
  0 <= LED_PIN with_led
  /\ LED_PIN sketch_config = -1
  /\ status with_led all_well boot = status sketch_config all_well boot
  /\ card (takePhoto with_led all_well boot)
     = card (takePhoto sketch_config all_well boot)
  /\ List.filter is_storage_op (since boot (takePhoto with_led all_well boot))
     = List.filter is_storage_op
         (since boot (takePhoto sketch_config all_well boot))
  /\ pins (takePhoto sketch_config all_well boot) = pins boot.
Proof.
  split; [cbn; lia|]. split; [reflexivity|].
  apply (indicator_does_not_interfere with_led sketch_config all_well boot);
    [cbn; lia | reflexivity].
Defined.

(** C4, as the code has it.  A capture reports [SensorFault] exactly when
    the camera yields no frame, [StorageFault] exactly when a frame was
    acquired and the open fails, and [Success] with the derived path in
    every other case: the results of the write and of the flush are not
    looked at, so they do not change the report. *)
Theorem status_by_exit_path (cfg : Config) (r : Responses) (w : World) :
  (status cfg r w = Some SensorFault <-> fb_get r = None)
  /\ (status cfg r w = Some StorageFault
      <-> is_Some (fb_get r) /\ open_ok r = false)
  /\ (status cfg r w = Some (Success (target_path r w))
      <-> is_Some (fb_get r) /\ open_ok r = true).
Proof.
  rewrite status_cases.
  destruct (fb_get r) as [fb|], (open_ok r); repeat split;
    try done; try (intros [[? ?] ?]; done); try (intros [? ?]; done); eauto.
Qed.

(** C4 as stated fails: the card accepts no byte of the frame and fails
    the flush, and the capture is reported as a success. *)
Lemma failed_write_reported_as_success :
  (write_n card_full < len frame3)%nat
  /\ flush_ok card_full = false
  /\ status sketch_config card_full boot = Some (Success "/camera/0.jpg")
  /\ status sketch_config card_full boot <> Some StorageFault
  /\ card (takePhoto sketch_config card_full boot) !! "/camera/0.jpg"
     = Some [].
Proof.
  split; [cbn; lia|]. split; [reflexivity|]. split; [reflexivity|].
  split; [discriminate|]. reflexivity.
Qed.

(** ** The wait for release *)

Lemma u32_small (z : Z) : 0 <= z < 2 ^ 32 -> u32 z = z.
Proof. intros H. unfold u32. by apply Z.mod_small. Qed.

Lemma sub32_u32 (a b : Z) : sub32 (u32 a) (u32 b) = u32 (a - b).
Proof. unfold sub32, u32. by rewrite <- Zminus_mod. Qed.

(** The elapsed time the sketch computes is the true one as long as that
    is below the wrap of the counter. *)
Lemma sub32_elapsed (a b : Z) :
  0 <= a - b < 2 ^ 32 -> sub32 (u32 a) (u32 b) = a - b.
Proof. intros H. rewrite sub32_u32. by apply u32_small. Qed.

Section Wait.

Context (cfg : Config) (btn : Z -> bool).

Lemma wait_release_from (c0 : Z) (n : nat) (w : World) :
  0 <= clock w - c0 <= 2005 ->
  2010 <= clock w - c0 + 5 * Z.of_nat n ->
  exists (k : nat) (w' : World),
    wait_release cfg btn n (u32 c0) w = Some w'
    /\ clock w' = clock w + 5 * Z.of_nat k
    /\ clock w' - c0 <= 2005
    /\ log w'
       = log w ++ wait_rounds (BUTTON_PIN cfg) (clock w) k
         ++ (if btn (clock w')
             then [(clock w', DigitalRead (BUTTON_PIN cfg) HIGH)]
             else [(clock w', DigitalRead (BUTTON_PIN cfg) LOW);
                   (clock w', WdtReset)])
    /\ (btn (clock w') = LOW -> 2000 < clock w' - c0)
    /\ pins w' = pins w /\ card w' = card w /\ shots w' = shots w
    /\ fb_held w' = fb_held w.
Proof.
  revert w. induction n as [|n IH]; intros w Hel Hfuel; [lia|].
  cbn [wait_release]. unfold digitalRead.
  destruct (btn (clock w)) eqn:Hlv; cbn [Bool.eqb LOW negb].
  - exists 0%nat. eexists. split; [reflexivity|]. cbn.
    rewrite Hlv, Z.add_0_r. repeat split; [lia | done].
  - unfold esp_task_wdt_reset, millis. cbn [clock emit].
    rewrite sub32_elapsed by lia.
    destruct (clock w - c0 >? 2000) eqn:Hto.
    + apply Z.gtb_lt in Hto.
      exists 0%nat. eexists. split; [reflexivity|]. cbn.
      rewrite Hlv, Z.add_0_r. repeat split; [lia | | lia].
      by rewrite <- app_assoc.
    + assert (clock w - c0 <= 2000) as Hle.
      { destruct (Z.gtb_spec (clock w - c0) 2000); [done | lia]. }
      unfold delay. change (u32 5) with 5.
      destruct (IH (elapse 5 (emit WdtReset
                  (emit (DigitalRead (BUTTON_PIN cfg) false) w))))
        as (k & w' & Hrun & Hclk & Hbound & Hlog & Hlow & Hp & Hc & Hs & Hf).
      { cbn. lia. }
      { cbn. lia. }
      exists (S k), w'. split; [exact Hrun|]. cbn in Hclk, Hlog, Hp, Hc, Hs, Hf.
      repeat split; try done; [lia|].
      rewrite Hlog. cbn. rewrite <- !app_assoc. reflexivity.
Qed.

(** The wait never uses up its iterations, whatever the line does. *)
Lemma wait_release_total (w : World) :
  exists w', wait_release cfg btn wait_fuel (millis w) w = Some w'
             /\ shots w' = shots w /\ card w' = card w
             /\ clock w <= clock w' <= clock w + 2005.
Proof.
  destruct (wait_release_from (clock w) wait_fuel w)
    as (k & w' & Hrun & Hclk & Hbound & _ & _ & _ & Hc & Hs & _).
  { lia. }
  { change (Z.of_nat wait_fuel) with 402. lia. }
  exists w'. unfold millis. repeat split; try done; lia.
Qed.

(** C6, as the code has it.  Once a capture has returned, in whatever
    state, the wait for release ends after [k <= 401] five-millisecond
    steps, that is within 2005 milliseconds and not within 2000: the
    timeout is looked at every five milliseconds and lets go only once
    more than 2000 have passed.  Every round in which the line reads
    pressed resets the watchdog.  A line that still reads pressed at the
    end has been waited on for the full 2005 milliseconds.  Polling
    resumes after the further tail delay of [DEBOUNCE_MS]. *)
Theorem wait_for_release_bounded (w : World) :
  exists (k : nat) (w' : World),
    wait_release cfg btn wait_fuel (millis w) w = Some w'
    /\ (k <= 401)%nat
    /\ clock w' = clock w + 5 * Z.of_nat k
    /\ since_t w w'
       = wait_rounds (BUTTON_PIN cfg) (clock w) k
         ++ (if btn (clock w')
             then [(clock w', DigitalRead (BUTTON_PIN cfg) HIGH)]
             else [(clock w', DigitalRead (BUTTON_PIN cfg) LOW);
                   (clock w', WdtReset)])
    /\ (btn (clock w') = LOW -> k = 401%nat)
    /\ clock (delay (DEBOUNCE_MS cfg) w')
       = clock w + 5 * Z.of_nat k + u32 (DEBOUNCE_MS cfg).
Proof.
  destruct (wait_release_from (clock w) wait_fuel w)
    as (k & w' & Hrun & Hclk & Hbound & Hlog & Hlow & _).
  { lia. }
  { change (Z.of_nat wait_fuel) with 402. lia. }
  exists k, w'. split; [exact Hrun|].
  split; [lia|]. split; [exact Hclk|].
  split; [by apply since_t_app|].
  split; [intros Hl; specialize (Hlow Hl); lia|].
  cbn. lia.
Qed.

End Wait.

(** C6 as stated fails: with the line held down the wait lets go 2005
    milliseconds after the capture returned, not within 2000, and polling
    resumes 40 milliseconds after that. *)
Lemma wait_exceeds_2000 :
  exists w' : World,
    wait_release sketch_config stuck_low wait_fuel (millis boot) boot = Some w'
    /\ clock w' - clock boot = 2005
    /\ ~ clock w' - clock boot <= 2000
    /\ clock (delay (DEBOUNCE_MS sketch_config) w') - clock boot = 2045
    /\ length (List.filter is_wdt_reset (since boot w')) = 402%nat.
Proof.
  eexists. split; [vm_compute; reflexivity|].
  vm_compute. repeat split; try reflexivity. intros H. apply H. reflexivity.
Qed.

(** ** The poll loop *)

Section Poll.

Context (cfg : Config) (btn : Z -> bool) (script : nat -> Responses).

Lemma run_app (gs1 gs2 : list nat) (s : Statics) (w : World) :
  run cfg btn script (gs1 ++ gs2) s w
  = match run cfg btn script gs1 s w with
    | Some (s', w') => run cfg btn script gs2 s' w'
    | None => None
    end.
Proof.
  revert s w. induction gs1 as [|g gs1 IH]; intros s w; [done|].
  cbn [run app]. destruct (loop _ _ _ _ _) as [[s' w']|]; [apply IH | done].
Qed.

Lemma span_cons (g : nat) (gs : list nat) :
  span (g :: gs) = Z.of_nat g + span gs.
Proof.
  unfold span. change (sum_list (g :: gs)) with (g + sum_list gs)%nat. lia.
Qed.

(** A poll that reads released fires nothing and arms the debouncer. *)
Lemma loop_released (s : Statics) (w : World) :
  btn (clock w) = HIGH ->
  loop cfg btn script s w
  = Some ({| last := HIGH; edge := edge s |},
          emit (DigitalRead (BUTTON_PIN cfg) HIGH) w).
Proof.
  intros Hb. unfold loop, digitalRead. rewrite Hb.
  destruct (last s); reflexivity.
Qed.

(** The first poll that reads pressed records the time and fires
    nothing. *)
Lemma loop_edge (s : Statics) (w : World) :
  last s = HIGH ->
  btn (clock w) = LOW ->
  loop cfg btn script s w
  = Some ({| last := LOW; edge := millis w |},
          emit (DigitalRead (BUTTON_PIN cfg) LOW) w).
Proof.
  intros Hl Hb. unfold loop, digitalRead. rewrite Hb, Hl. reflexivity.
Qed.

(** A further pressed poll inside the window fires nothing. *)
Lemma loop_hold (s : Statics) (w : World) :
  last s = LOW ->
  btn (clock w) = LOW ->
  sub32 (millis w) (edge s) <= u32 (DEBOUNCE_MS cfg) ->
  loop cfg btn script s w
  = Some ({| last := LOW; edge := edge s |},
          emit (DigitalRead (BUTTON_PIN cfg) LOW) w).
Proof.
  intros Hl Hb Hin. unfold loop, digitalRead. rewrite Hb, Hl.
  cbn [Bool.eqb HIGH LOW andb]. unfold millis in *. cbn [clock emit].
  destruct (Z.gtb_spec (sub32 (u32 (clock w)) (edge s))
              (u32 (DEBOUNCE_MS cfg))); [lia | reflexivity].
Qed.

(** A pressed poll past the window takes one photo, waits for release and
    sits out the tail delay. *)
Lemma loop_fire (s : Statics) (w : World) :
  last s = LOW ->
  btn (clock w) = LOW ->
  u32 (DEBOUNCE_MS cfg) < sub32 (millis w) (edge s) ->
  exists w', loop cfg btn script s w
             = Some ({| last := LOW; edge := edge s |}, w')
             /\ shots w' = S (shots w)
             /\ clock w <= clock w'.
Proof.
  intros Hl Hb Hout. unfold loop, digitalRead. rewrite Hb, Hl.
  cbn [Bool.eqb HIGH LOW andb]. unfold millis in Hout |- *.
  cbn [clock emit shots].
  destruct (Z.gtb_spec (sub32 (u32 (clock w)) (edge s))
              (u32 (DEBOUNCE_MS cfg))) as [_|Hno]; [|lia].
  set (w0 := count_shot (emit (DigitalRead (BUTTON_PIN cfg) LOW) w)).
  set (w1 := takePhoto cfg (script (shots w)) w0).
  destruct (wait_release_total cfg btn w1) as (w2 & Hrun & Hs & _ & Hclk).
  unfold millis in Hrun. rewrite Hrun.
  eexists. split; [reflexivity|]. cbn [shots clock delay elapse].
  subst w1. rewrite Hs, takePhoto_shots. split; [reflexivity|].
  rewrite takePhoto_clock in Hclk. cbn [clock w0 count_shot emit] in Hclk.
  assert (0 <= u32 (DEBOUNCE_MS cfg)).
  { unfold u32. apply Z.mod_pos_bound. lia. }
  destruct (fb_get _); [destruct (open_ok _)|]; lia.
Qed.

(** The loop returns from every call: the poll loop never gets stuck. *)
Lemma loop_total (s : Statics) (w : World) :
  exists s' w', loop cfg btn script s w = Some (s', w').
Proof.
  destruct (btn (clock w)) eqn:Hb.
  { rewrite loop_released by done. eauto. }
  destruct (last s) eqn:Hl.
  { rewrite loop_edge by done. eauto. }
  destruct (Z.le_gt_cases (sub32 (millis w) (edge s))
              (u32 (DEBOUNCE_MS cfg))) as [Hin|Hout].
  - rewrite loop_hold by done. eauto.
  - destruct (loop_fire s w Hl Hb Hout) as (w' & -> & _). eauto.
Qed.

Lemma run_total (gaps : list nat) (s : Statics) (w : World) :
  exists s' w', run cfg btn script gaps s w = Some (s', w').
Proof.
  revert s w. induction gaps as [|g gaps IH]; intros s w; cbn [run].
  - eauto.
  - destruct (loop_total s (elapse (Z.of_nat g) w)) as (s' & w' & ->).
    apply IH.
Qed.

End Poll.

(** ** One press, poll by poll *)

Section Debounce.

Context (cfg : Config) (btn : Z -> bool) (script : nat -> Responses).

Hypothesis window_fits : 0 <= DEBOUNCE_MS cfg < 2 ^ 32.

(** Pressed polls inside the window leave the debouncer and the shot
    count as they are. *)
Lemma run_held (t0 : Z) (held : list nat) (s : Statics) (w : World) :
  last s = LOW ->
  edge s = u32 t0 ->
  t0 <= clock w ->
  Forall (pressed_within btn t0 (DEBOUNCE_MS cfg))
    (sample_times (clock w) held) ->
  exists w', run cfg btn script held s w = Some (s, w')
             /\ shots w' = shots w
             /\ clock w' = clock w + span held.
Proof.
  intros Hl He. revert w.
  induction held as [|g held IH]; intros w Hle Hall; cbn [run].
  - exists w. unfold span. cbn. split; [done|]. split; [done | lia].
  - cbn [sample_times] in Hall. apply Forall_cons in Hall as [[Hb Hin] Hall].
    rewrite loop_hold; cbn [clock elapse]; try done.
    + replace {| last := LOW; edge := edge s |} with s
        by (destruct s; cbn in *; by subst).
      destruct (IH (emit (DigitalRead (BUTTON_PIN cfg) LOW)
                      (elapse (Z.of_nat g) w)))
        as (w' & Hrun & Hs & Hc); cbn [clock emit elapse]; [lia | done |].
      cbn [clock shots emit elapse] in Hs, Hc.
      exists w'. split; [done|]. split; [done|].
      rewrite Hc, span_cons. lia.
    + unfold millis. cbn [clock elapse]. rewrite He, sub32_elapsed by lia.
      rewrite u32_small by done. lia.
Qed.

(** A press as the loop sees it: a poll that reads pressed after one that
    read released, then polls that read pressed inside the window.  None of
    them fires. *)
Lemma run_press (g0 : nat) (held : list nat) (s : Statics) (w : World) :
  last s = HIGH ->
  Forall (pressed_within btn (clock w + Z.of_nat g0) (DEBOUNCE_MS cfg))
    (sample_times (clock w) (g0 :: held)) ->
  exists w', run cfg btn script (g0 :: held) s w
             = Some ({| last := LOW; edge := u32 (clock w + Z.of_nat g0) |}, w')
             /\ shots w' = shots w
             /\ clock w' = clock w + Z.of_nat g0 + span held.
Proof.
  intros Hl Hall. cbn [sample_times] in Hall.
  apply Forall_cons in Hall as [[Hb _] Hall].
  cbn [run]. rewrite loop_edge by done.
  destruct (run_held (clock w + Z.of_nat g0) held
              {| last := LOW; edge := millis (elapse (Z.of_nat g0) w) |}
              (emit (DigitalRead (BUTTON_PIN cfg) LOW) (elapse (Z.of_nat g0) w)))
    as (w' & Hrun & Hs & Hc); try done.
  exists w'. split; [exact Hrun|]. split; [exact Hs | exact Hc].
Qed.

(** C3, as the code has it.  Take a press as the loop sees it: a poll that
    reads pressed after one that read released, followed by polls that read
    pressed no later than [DEBOUNCE_MS] after the first.
    - If the next poll reads released, the press has fired nothing and the
      debouncer is armed again.
    - If the next poll reads pressed and comes more than [DEBOUNCE_MS]
      after the first (strictly more: at exactly [DEBOUNCE_MS] nothing
      fires), that poll fires one activation, the only one so far; and if
      the poll after the wait for release and the tail delay reads
      released, nothing further fires and the debouncer is armed again.
    What happens when the line still reads pressed at that poll is not
    covered. *)
Theorem one_activation_per_press
    (g0 : nat) (held : list nat) (s : Statics) (w : World) :
  last s = HIGH ->
  Forall (pressed_within btn (clock w + Z.of_nat g0) (DEBOUNCE_MS cfg))
    (sample_times (clock w) (g0 :: held)) ->
  (forall gr : nat,
     btn (clock w + Z.of_nat g0 + span held + Z.of_nat gr) = HIGH ->
     exists s' w',
       run cfg btn script (g0 :: held ++ [gr]) s w = Some (s', w')
       /\ shots w' = shots w /\ last s' = HIGH)
  /\ (forall gf : nat,
        btn (clock w + Z.of_nat g0 + span held + Z.of_nat gf) = LOW ->
        DEBOUNCE_MS cfg < span held + Z.of_nat gf < 2 ^ 32 ->
        exists s1 w1,
          shots_after (run cfg btn script (g0 :: held) s w) = Some (shots w)
          /\ run cfg btn script (g0 :: held ++ [gf]) s w = Some (s1, w1)
          /\ shots w1 = S (shots w)
          /\ forall gr : nat,
               btn (clock w1 + Z.of_nat gr) = HIGH ->
               exists s2 w2,
                 run cfg btn script [gr] s1 w1 = Some (s2, w2)
                 /\ shots w2 = S (shots w) /\ last s2 = HIGH).
Proof.
  intros Hl Hall.
  destruct (run_press g0 held s w Hl Hall) as (wp & Hrun & Hs & Hc).
  split.
  - intros gr Hb. rewrite app_comm_cons, run_app, Hrun. cbn [run].
    rewrite loop_released by (cbn [clock elapse]; by rewrite Hc).
    eexists _, _. split; [reflexivity|]. by split.
  - intros gf Hb Hpast. rewrite app_comm_cons, run_app, Hrun. cbn [run].
    destruct (loop_fire cfg btn script
                {| last := LOW; edge := u32 (clock w + Z.of_nat g0) |}
                (elapse (Z.of_nat gf) wp))
      as (w1 & Hfire & Hs1 & _).
    { done. }
    { cbn [clock elapse]. by rewrite Hc. }
    { unfold millis. cbn [clock elapse edge]. rewrite Hc.
      rewrite sub32_elapsed, u32_small by lia. lia. }
    rewrite Hfire. cbn [edge].
    eexists _, w1. split; [cbn; by rewrite Hs|]. split; [reflexivity|].
    cbn [shots elapse] in Hs1. split; [by rewrite Hs1, Hs|].
    intros gr Hr. cbn [run]. rewrite loop_released by done.
    eexists _, _. split; [reflexivity|]. cbn [shots emit elapse last].
    split; [by rewrite Hs1, Hs | done].
Qed.

End Debounce.

Lemma one_activation_per_press_witness :
  0 <= DEBOUNCE_MS sketch_config < 2 ^ 32
  /\ last statics_init = HIGH
  /\ Forall (pressed_within (press 10 110) (clock boot + Z.of_nat 10)
               (DEBOUNCE_MS sketch_config))
       (sample_times (clock boot) [10; 20; 20]%nat)
  /\ exists s1 w1,
       run sketch_config (press 10 110) (fun _ => all_well)
         [10; 20; 20; 1]%nat statics_init boot = Some (s1, w1)
       /\ shots w1 = 1%nat.
Proof.
  assert (0 <= DEBOUNCE_MS sketch_config < 2 ^ 32) as H1 by (cbn; lia).
  assert (last statics_init = HIGH) as H2 by reflexivity.
  assert (Forall (pressed_within (press 10 110) (clock boot + Z.of_nat 10)
                    (DEBOUNCE_MS sketch_config))
            (sample_times (clock boot) [10; 20; 20]%nat)) as H3.
  { repeat (constructor; [split; [reflexivity | cbn; lia] |]). constructor. }
  split; [exact H1|]. split; [exact H2|]. split; [exact H3|].
  destruct (one_activation_per_press sketch_config (press 10 110)
              (fun _ => all_well) H1 10%nat [20; 20]%nat statics_init boot
              H2 H3) as [_ Hfire].
  destruct (Hfire 1%nat) as (s1 & w1 & _ & Hrun & Hshots & _);
    [reflexivity | split; reflexivity |].
  exists s1, w1. split; [exact Hrun | exact Hshots].
Defined.

(** The two scenarios of the specification, polled every millisecond: a
    press held 10 milliseconds takes no photo, one held 100 takes one. *)
Lemma press_of_10_takes_none :
  shots_after (run sketch_config (press 10 20) (fun _ => all_well)
                 (every_ms 300) statics_init boot) = Some 0%nat.
Proof. vm_compute. reflexivity. Qed.

Lemma press_of_100_takes_one :
  shots_after (run sketch_config (press 10 110) (fun _ => all_well)
                 (every_ms 300) statics_init boot) = Some 1%nat.
Proof. vm_compute. reflexivity. Qed.

(** C3 as stated fails, polling every millisecond.
    - A press read pressed from 10 to 50, which is [DEBOUNCE_MS] long,
      fires nothing.
    - One press held from 10 to 2300 fires twice, at 51 and again at 2147,
      once the wait for release has timed out; the line is low all the
      while.
    - After a press that fired, a press of 10 milliseconds that starts
      during the tail delay fires at once. *)
Lemma press_fires_none_or_twice :
  (press 10 51 10 = LOW /\ press 10 51 50 = LOW /\ press 10 51 51 = HIGH
   /\ DEBOUNCE_MS sketch_config <= 50 - 10
   /\ shots_after (run sketch_config (press 10 51) (fun _ => all_well)
                     (every_ms 300) statics_init boot) = Some 0%nat)
  /\ (forall t, 10 <= t < 2300 -> press 10 2300 t = LOW)
  /\ (exists s w,
        run sketch_config (press 10 2300) (fun _ => all_well)
          (every_ms 60) statics_init boot = Some (s, w)
        /\ shots w = 2%nat
        /\ times_of is_fb_get w = [81; 2177])
  /\ (exists s w,
        run sketch_config
          (fun t => press 10 60 t && press 140 150 t) (fun _ => all_well)
          (every_ms 60) statics_init boot = Some (s, w)
        /\ shots w = 2%nat
        /\ times_of is_fb_get w = [81; 172]).
Proof.
  split.
  { repeat split; try reflexivity. }
  split.
  { intros t Ht. unfold press.
    destruct (Z.leb_spec 10 t); [|lia]. destruct (Z.ltb_spec t 2300); [|lia].
    reflexivity. }
  split; eexists _, _; (split; [vm_compute; reflexivity|]);
    split; vm_compute; reflexivity.
Qed.

(** ** Start-up *)

Section Startup.

Context (cfg : Config) (btn : Z -> bool) (script : nat -> Responses).

Lemma ledOn_log (w : World) :
  exists l, log (ledOn cfg w) = log w ++ l /\ l.*2 = led_events cfg LOW.
Proof.
  unfold ledOn, led_events. destruct (0 <=? LED_PIN cfg); cbn.
  - by eexists [_].
  - exists []. by rewrite app_nil_r.
Qed.

Lemma ledOff_log (w : World) :
  exists l, log (ledOff cfg w) = log w ++ l /\ l.*2 = led_events cfg HIGH.
Proof.
  unfold ledOff, led_events. destruct (0 <=? LED_PIN cfg); cbn.
  - by eexists [_].
  - exists []. by rewrite app_nil_r.
Qed.

Lemma ledOn_clock (w : World) : clock (ledOn cfg w) = clock w.
Proof. unfold ledOn. by destruct (0 <=? LED_PIN cfg). Qed.

Lemma ledOff_clock (w : World) : clock (ledOff cfg w) = clock w.
Proof. unfold ledOff. by destruct (0 <=? LED_PIN cfg). Qed.

Lemma ledOn_shots (w : World) : shots (ledOn cfg w) = shots w.
Proof. unfold ledOn. by destruct (0 <=? LED_PIN cfg). Qed.

Lemma ledOff_shots (w : World) : shots (ledOff cfg w) = shots w.
Proof. unfold ledOff. by destruct (0 <=? LED_PIN cfg). Qed.

(** The blink loop: each round switches the indicator on and off and
    takes 200 milliseconds; it reads no button and takes no photo. *)
Lemma blink_log (turns : nat) (w : World) :
  exists l, log (blink cfg turns w) = log w ++ l
            /\ l.*2 = concat (replicate turns (blink_events cfg)).
Proof.
  revert w. induction turns as [|n IH]; intros w; cbn [blink].
  - exists []. by rewrite app_nil_r.
  - destruct (ledOn_log w) as (l1 & E1 & F1).
    destruct (ledOff_log (delay 100 (ledOn cfg w))) as (l2 & E2 & F2).
    destruct (IH (delay 100 (ledOff cfg (delay 100 (ledOn cfg w)))))
      as (l3 & E3 & F3).
    exists (l1 ++ l2 ++ l3). split.
    + rewrite E3. cbn [log delay elapse]. rewrite E2. cbn [log delay elapse].
      rewrite E1. by rewrite <- !app_assoc.
    + rewrite !fmap_app, F1, F2, F3. cbn [replicate concat].
      unfold blink_events. by rewrite <- !app_assoc.
Qed.

Lemma blink_clock (turns : nat) (w : World) :
  clock (blink cfg turns w) = clock w + 200 * Z.of_nat turns.
Proof.
  revert w. induction turns as [|n IH]; intros w; cbn [blink]; [lia|].
  rewrite IH. unfold delay. change (u32 100) with 100. cbn [clock elapse].
  rewrite ledOff_clock. cbn [clock elapse]. rewrite ledOn_clock. lia.
Qed.

Lemma blink_shots (turns : nat) (w : World) :
  shots (blink cfg turns w) = shots w.
Proof.
  revert w. induction turns as [|n IH]; intros w; cbn [blink]; [done|].
  rewrite IH. cbn [shots delay elapse]. rewrite ledOff_shots.
  cbn [shots delay elapse]. apply ledOn_shots.
Qed.

Lemma filter_blink_rounds (turns : nat) (f : Event -> bool) :
  (forall pin l, f (DigitalWrite pin l) = false) ->
  List.filter f (concat (replicate turns (blink_events cfg))) = [].
Proof.
  intros Hf. induction turns as [|n IH]; [done|].
  cbn [replicate concat]. unfold blink_events at 1.
  by rewrite !List.filter_app, !filter_led_events, IH.
Qed.

(** With a dead camera [setup] gets as far as the blink loop. *)
Lemma setup_reaches_blink (st : Startup) (turns : nat) (w : World) :
  camera_init_ok st = false ->
  exists w1 l,
    setup cfg st turns w = Spinning (blink cfg turns w1)
    /\ log w1 = log w ++ l
    /\ l.*2 = failed_setup_events cfg st
    /\ clock w1 = clock w
    /\ shots w1 = shots w.
Proof.
  intros Hcam.
  unfold setup, cameraSetup, failed_setup_events, led_setup_events,
    led_events, ledOn, ledSetup, sdmmcInit, createDir, Serial_println,
    pinMode, Serial_begin, digitalWrite.
  rewrite Hcam. cbn [negb].
  destruct (0 <=? LED_PIN cfg);
    eexists _, _; (split; [reflexivity|]); cbn; rewrite <- ?app_assoc;
    (split; [reflexivity|]); repeat split.
Qed.

(** ... and is still in it after any number of rounds. *)
Lemma setup_camera_dead (st : Startup) (turns : nat) (w : World) :
  camera_init_ok st = false ->
  exists w', setup cfg st turns w = Spinning w'
             /\ since w w'
                = failed_setup_events cfg st
                  ++ concat (replicate turns (blink_events cfg))
             /\ clock w' = clock w + 200 * Z.of_nat turns
             /\ shots w' = shots w.
Proof.
  intros Hcam.
  destruct (setup_reaches_blink st turns w Hcam)
    as (w1 & l & Hset & Hlog & Hev & Hclk & Hshots).
  destruct (blink_log turns w1) as (l' & Hlog' & Hev').
  exists (blink cfg turns w1). split; [exact Hset|].
  rewrite blink_clock, blink_shots, Hclk, Hshots.
  split; [|done].
  rewrite (since_app w (blink cfg turns w1) (l ++ l')).
  - by rewrite fmap_app, Hev, Hev'.
  - by rewrite Hlog', Hlog, <- app_assoc.
Qed.

(** With a camera that comes up [setup] returns, whatever the card did. *)
Lemma setup_camera_up (st : Startup) (turns : nat) (w : World) :
  camera_init_ok st = true ->
  exists w', setup cfg st turns w = Returned w'.
Proof.
  intros Hcam. unfold setup, cameraSetup. rewrite Hcam. cbn [negb]. eauto.
Qed.

(** C8, as the code has it.  When the camera does not come up, [setup]
    logs the failure and stays in the blink loop for good: however many
    rounds have passed and however long the core would have polled, the
    sketch is still inside [setup], switching the indicator (if there is
    one) on and off every 100 milliseconds; it has read no button and
    taken no photo.  A card that does not mount, or a capture directory
    that cannot be made, stops nothing: the calls return nothing the
    sketch could look at, and with a working camera the sketch goes on to
    the poll loop. *)
Theorem camera_failure_halts (st : Startup) (w : World) :
  (camera_init_ok st = false ->
   forall (turns : nat) (gaps : list nat),
   exists w',
     sketch cfg btn script st turns gaps w = Some (InSetup w')
     /\ since w w'
        = failed_setup_events cfg st
          ++ concat (replicate turns (blink_events cfg))
     /\ clock w' = clock w + 200 * Z.of_nat turns
     /\ List.filter is_button_read (since w w') = []
     /\ shots w' = shots w)
  /\ (camera_init_ok st = true ->
      forall (turns : nat) (gaps : list nat),
      exists s' w', sketch cfg btn script st turns gaps w = Some (InLoop s' w')).
Proof.
  split; intros Hcam turns gaps.
  - destruct (setup_camera_dead st turns w Hcam)
      as (w' & Hset & Hev & Hclk & Hshots).
    exists w'. unfold sketch. rewrite Hset. split; [reflexivity|].
    split; [exact Hev|]. split; [exact Hclk|]. split; [|exact Hshots].
    rewrite Hev, List.filter_app, filter_blink_rounds by done.
    unfold failed_setup_events.
    rewrite !List.filter_app, !filter_led_events by done.
    unfold led_setup_events. by destruct (0 <=? LED_PIN cfg).
  - destruct (setup_camera_up st turns w Hcam) as (w' & Hset).
    unfold sketch. rewrite Hset.
    destruct (run_total cfg btn script gaps statics_init w')
      as (s' & w'' & ->).
    eauto.
Qed.

End Startup.

Lemma camera_failure_halts_witness :
  camera_init_ok camera_dead = false
  /\ exists w',
       sketch with_led stuck_low (fun _ => all_well) camera_dead 3
         (every_ms 100) boot = Some (InSetup w')
       /\ since boot w'
          = failed_setup_events with_led camera_dead
            ++ concat (replicate 3 (blink_events with_led))
       /\ clock w' = clock boot + 200 * Z.of_nat 3
       /\ List.filter is_button_read (since boot w') = []
       /\ shots w' = shots boot.
Proof.
  split; [reflexivity|].
  apply (camera_failure_halts with_led stuck_low (fun _ => all_well)
           camera_dead boot).
  reflexivity.
Defined.

(** C8 as stated fails: the card does not mount and the directory cannot
    be made, and the sketch still leaves [setup] and polls the button. *)
Lemma mount_failure_does_not_halt :
  mount_ok card_missing = false
  /\ mkdir_ok card_missing = false
  /\ exists s w,
       sketch sketch_config (press 10 110) (fun _ => all_well)
         card_missing 5 (every_ms 3) boot = Some (InLoop s w)
       /\ List.filter is_button_read (since boot w)
          = [DigitalRead 47 HIGH; DigitalRead 47 HIGH; DigitalRead 47 HIGH].
Proof.
  split; [reflexivity|]. split; [reflexivity|].
  eexists _, _. split; vm_compute; reflexivity.
Qed.

(** ** Paths across a session *)

Section Session.

Context (cfg : Config).

(** A capture removes nothing from the card. *)
Lemma takePhoto_keeps_entries (r : Responses) (w : World) (p : string) :
  card (takePhoto cfg r w) !! p = None -> card w !! p = None.
Proof.
  rewrite takePhoto_card.
  destruct (fb_get r) as [fb|]; [|done]. destruct (open_ok r); [|done].
  intros H. by apply lookup_insert_None in H as [? _].
Qed.

(** A capture reported as stored has its path on the card. *)
Lemma takePhoto_stores (r : Responses) (w : World) (p : string) :
  success_path (status cfg r w) = Some p ->
  p = target_path r w
  /\ is_Some (fb_get r) /\ open_ok r = true
  /\ is_Some (card (takePhoto cfg r w) !! p).
Proof.
  rewrite status_cases, takePhoto_card.
  destruct (fb_get r) as [fb|]; [|done]. destruct (open_ok r); [|done].
  cbn. intros [= <-]. rewrite lookup_insert_eq. eauto.
Qed.

Lemma session_cons (g : nat) (r : Responses) (steps : list (nat * Responses))
    (w : World) :
  (session cfg ((g, r) :: steps) w).1
  = status cfg r (elapse (Z.of_nat g) w)
    :: (session cfg steps (takePhoto cfg r (elapse (Z.of_nat g) w))).1.
Proof. cbn [session]. by destruct (session cfg steps _). Qed.

End Session.

(** C5 as stated fails.
    - On a card that holds only [1.jpg] (one entry, so the count is 1), two
      captures in a row are both stored as [/camera/1.jpg].
    - On a card that holds [0.jpg] to [128.jpg], a capture whose count
      query fails when the clock reads 130 is stored as [/camera/130.jpg];
      the next one counts 130 entries and is stored under the same path. *)
Lemma session_repeats_a_path :
  paths (session sketch_config [(100%nat, all_well); (100%nat, all_well)]
           stale_card).1
  = ["/camera/1.jpg"; "/camera/1.jpg"]
  /\ ~ NoDup (paths (session sketch_config
                      [(100%nat, all_well); (100%nat, all_well)]
                      stale_card).1)
  /\ paths (session sketch_config [(100%nat, count_fails); (40%nat, all_well)]
              (used_card 129)).1
     = ["/camera/130.jpg"; "/camera/130.jpg"]
  /\ ~ NoDup (paths (session sketch_config
                      [(100%nat, count_fails); (40%nat, all_well)]
                      (used_card 129)).1).
Proof.
  assert (forall p : string, ~ NoDup [p; p]) as Hdup.
  { intros p H. apply NoDup_cons in H as [H _]. apply H. by left. }
  assert (paths (session sketch_config
                   [(100%nat, all_well); (100%nat, all_well)] stale_card).1
          = ["/camera/1.jpg"; "/camera/1.jpg"]) as E1
    by (vm_compute; reflexivity).
  assert (paths (session sketch_config
                   [(100%nat, count_fails); (40%nat, all_well)]
                   (used_card 129)).1
          = ["/camera/130.jpg"; "/camera/130.jpg"]) as E2
    by (vm_compute; reflexivity).
  rewrite E1, E2. repeat split; try apply Hdup.
Qed.

(** ** Sessions that only count *)

Lemma length_append (a b : string) :
  String.length (a +:+ b) = (String.length a + String.length b)%nat.
Proof. induction a as [|c a IH]; simpl; [done | by rewrite IH]. Qed.

Lemma append_inj_suffix (a b c : string) : a +:+ c = b +:+ c -> a = b.
Proof.
  revert b. induction a as [|x a IH]; intros [|y b] H; simpl in H.
  - done.
  - apply (f_equal String.length) in H.
    rewrite ?length_append in H. simpl in H. rewrite ?length_append in H. lia.
  - apply (f_equal String.length) in H.
    rewrite ?length_append in H. simpl in H. rewrite ?length_append in H. lia.
  - injection H as -> H. f_equal. by apply IH.
Qed.

(** Different indices give different paths. *)
Lemma file_path_inj (a b : Z) : file_path a = file_path b -> a = b.
Proof.
  unfold file_path. intros H. apply (inj (String.append "/camera/")) in H.
  apply append_inj_suffix in H. by apply (inj pretty) in H.
Qed.

Lemma numbered_below_count_step (cfg : Config) (r : Responses) (w : World) :
  count_ok r = true ->
  numbered_below_count (card w) ->
  card w !! target_path r w = None
  /\ numbered_below_count (card (takePhoto cfg r w)).
Proof.
  intros Hcount Hnum.
  assert (target_path r w = file_path (Z.of_nat (size (card w)))) as Htp.
  { unfold target_path, count_result, file_index. rewrite Hcount.
    destruct (Z.ltb_spec (Z.of_nat (size (card w))) 0); [lia | done]. }
  assert (card w !! target_path r w = None) as Hfree.
  { rewrite Htp. apply Hnum. lia. }
  split; [exact Hfree|].
  rewrite takePhoto_card.
  destruct (fb_get r) as [fb|]; [|done]. destruct (open_ok r); [|done].
  intros k Hk. rewrite map_size_insert_None in Hk by done.
  rewrite lookup_insert_ne; [apply Hnum; lia|].
  rewrite Htp. intros E. apply file_path_inj in E. lia.
Qed.

(** A fresh card is numbered below its count. *)
Lemma boot_numbered_below_count : numbered_below_count (card boot).
Proof. intros k _. apply lookup_empty. Qed.

(** * Further properties of the sketch *)

(** ** What a capture leaves behind *)

(** X1. A capture that opens its file leaves there the bytes of the frame
    the card accepted, counted from the first, whatever the entry held
    before: the whole payload when the card accepts all of it.  No other
    entry of the card changes. *)
Theorem stored_file_is_frame_prefix
    (cfg : Config) (r : Responses) (w : World) (fb : camera_fb_t) :
  fb_get r = Some fb ->
  open_ok r = true ->
  card (takePhoto cfg r w) !! target_path r w
  = Some (take (Nat.min (write_n r) (len fb)) (buf fb))
  /\ ((len fb <= write_n r)%nat ->
      card (takePhoto cfg r w) !! target_path r w = Some (buf fb))
  /\ forall p, p <> target_path r w ->
               card (takePhoto cfg r w) !! p = card w !! p.
Proof.
  intros Hfb Hopen. rewrite takePhoto_card, Hfb, Hopen.
  split; [apply lookup_insert_eq|]. split.
  - intros Hall. rewrite lookup_insert_eq, Nat.min_r by done.
    by rewrite take_len.
  - intros p Hp. by rewrite lookup_insert_ne.
Qed.

Lemma stored_file_is_frame_prefix_witness :
  fb_get short_write = Some frame3
  /\ open_ok short_write = true
  /\ card (takePhoto sketch_config short_write stale_card) !! "/camera/1.jpg"
     = Some [x01; x02]%byte.
Proof.
  split; [reflexivity|]. split; [reflexivity|].
  apply (stored_file_is_frame_prefix sketch_config short_write stale_card
           frame3); reflexivity.
Defined.

(** X2. When the open fails the capture logs the failure, gives the frame
    back and switches the indicator to idle, in this order; it does not
    write, flush or close, the card is as it was, and the report is
    [StorageFault]. *)
Theorem open_failure_releases_frame
    (cfg : Config) (r : Responses) (w : World) (fb : camera_fb_t) :
  fb_get r = Some fb ->
  open_ok r = false ->
  since w (takePhoto cfg r w)
  = led_events cfg LOW
    ++ [FbGet true; ReadFileNum "/camera" (count_result r w);
        Open (target_path r w) false; Println "File open failed"; FbReturn]
    ++ led_events cfg HIGH
  /\ card (takePhoto cfg r w) = card w
  /\ fb_held (takePhoto cfg r w) = fb_held w
  /\ indicator_idle cfg (takePhoto cfg r w)
  /\ status cfg r w = Some StorageFault.
Proof.
  intros Hfb Hopen.
  rewrite status_cases, takePhoto_card, takePhoto_events, takePhoto_fb_held.
  unfold capture_events. rewrite Hfb, Hopen.
  repeat split. apply takePhoto_indicator_idle.
Qed.

Lemma open_failure_releases_frame_witness :
  fb_get open_fails = Some frame3
  /\ open_ok open_fails = false
  /\ since boot (takePhoto with_led open_fails boot)
     = [DigitalWrite 2 LOW; FbGet true; ReadFileNum "/camera" 0;
        Open "/camera/0.jpg" false; Println "File open failed"; FbReturn;
        DigitalWrite 2 HIGH]
  /\ card (takePhoto with_led open_fails boot) = card boot
  /\ fb_held (takePhoto with_led open_fails boot) = fb_held boot
  /\ indicator_idle with_led (takePhoto with_led open_fails boot)
  /\ status with_led open_fails boot = Some StorageFault.
Proof.
  split; [reflexivity|]. split; [reflexivity|].
  apply (open_failure_releases_frame with_led open_fails boot frame3);
    reflexivity.
Defined.

(** X3. A capture adds at most one entry to the card: exactly one when it
    opens a path that was free, none when the path was there already (the
    entry is written over) and none when it never opens a file. *)
Theorem capture_adds_at_most_one_entry
    (cfg : Config) (r : Responses) (w : World) :
  (fb_get r = None \/ open_ok r = false ->
   size (card (takePhoto cfg r w)) = size (card w))
  /\ (is_Some (fb_get r) -> open_ok r = true ->
      card w !! target_path r w = None ->
      size (card (takePhoto cfg r w)) = S (size (card w)))
  /\ (is_Some (fb_get r) -> open_ok r = true ->
      is_Some (card w !! target_path r w) ->
      size (card (takePhoto cfg r w)) = size (card w)).
Proof.
  rewrite takePhoto_card. split; [|split].
  - intros [-> | Hopen]; [done|]. rewrite Hopen. by destruct (fb_get r).
  - intros [fb ->] -> Hfree. by apply map_size_insert_None.
  - intros [fb ->] -> [old Hold]. by apply map_size_insert_Some.
Qed.

(** X4. A capture drives no line but the indicator's: every other pin
    keeps its level, and without an indicator no pin changes at all. *)
Theorem capture_drives_only_led
    (cfg : Config) (r : Responses) (w : World) :
  (forall pin, pin <> LED_PIN cfg ->
               pins (takePhoto cfg r w) !! pin = pins w !! pin)
  /\ (LED_PIN cfg < 0 -> pins (takePhoto cfg r w) = pins w).
Proof.
  split.
  - intros pin Hpin. unfold_capture.
    destruct (0 <=? LED_PIN cfg), (fb_get r) as [fb|], (open_ok r); cbn;
      rewrite ?lookup_insert_ne by done; reflexivity.
  - intros Hno. unfold_capture.
    destruct (Z.leb_spec 0 (LED_PIN cfg)); [lia|].
    destruct (fb_get r) as [fb|], (open_ok r); reflexivity.
Qed.

(** ** The file index *)

Lemma u32_idem (z : Z) : u32 (u32 z) = u32 z.
Proof. unfold u32. apply Z.mod_mod. lia. Qed.

Lemma u32_range (z : Z) : 0 <= u32 z < 2 ^ 32.
Proof. unfold u32. apply Z.mod_pos_bound. lia. Qed.

(** The conversion to [int] keeps the value modulo [2 ^ 32]. *)
Lemma u32_to_int (z : Z) : u32 (to_int z) = u32 z.
Proof.
  unfold to_int. pose proof (u32_range z) as Hr.
  destruct (u32 z <? 2 ^ 31); [apply u32_idem|].
  unfold u32 in *. rewrite Zminus_mod, Z.mod_same, Z.sub_0_r by lia.
  by rewrite !Z.mod_mod by lia.
Qed.

Lemma fallback_target (r : Responses) (w : World) :
  count_ok r = false ->
  target_path r w = file_path (to_int (clock w + Z.of_nat (grab_ms r))).
Proof.
  intros Hcount.
  unfold target_path, count_result, file_index, millis. rewrite Hcount.
  cbn [Z.ltb Z.compare clock elapse]. unfold to_int. by rewrite u32_idem.
Qed.

(** X5. When the count query fails the index is the millisecond counter
    read as an [int] once the grab has returned: it lies in the range of
    [int], equals the time since boot during the first [2 ^ 31]
    milliseconds, and is that time less [2 ^ 32], a negative number, from
    there up to the wrap of the counter. *)
Theorem fallback_index_follows_clock (r : Responses) (w : World) :
  count_ok r = false ->
  target_path r w = file_path (to_int (clock w + Z.of_nat (grab_ms r)))
  /\ - 2 ^ 31 <= to_int (clock w + Z.of_nat (grab_ms r)) < 2 ^ 31
  /\ (0 <= clock w + Z.of_nat (grab_ms r) < 2 ^ 31 ->
      to_int (clock w + Z.of_nat (grab_ms r))
      = clock w + Z.of_nat (grab_ms r))
  /\ (2 ^ 31 <= clock w + Z.of_nat (grab_ms r) < 2 ^ 32 ->
      to_int (clock w + Z.of_nat (grab_ms r))
      = clock w + Z.of_nat (grab_ms r) - 2 ^ 32).
Proof.
  intros Hcount. set (t := clock w + Z.of_nat (grab_ms r)).
  split; [|split; [|split]].
  - by apply fallback_target.
  - unfold to_int. pose proof (u32_range t) as Hr.
    destruct (Z.ltb_spec (u32 t) (2 ^ 31)); lia.
  - intros Ht. unfold to_int. rewrite u32_small by lia.
    destruct (Z.ltb_spec t (2 ^ 31)); lia.
  - intros Ht. unfold to_int. rewrite u32_small by lia.
    destruct (Z.ltb_spec t (2 ^ 31)); lia.
Qed.

Lemma fallback_index_follows_clock_witness :
  count_ok count_fails = false
  /\ target_path count_fails (elapse 100 boot) = "/camera/130.jpg"
  /\ target_path count_fails (elapse (2 ^ 31) boot) = "/camera/-2147483618.jpg".
Proof.
  split; [reflexivity|].
  destruct (fallback_index_follows_clock count_fails (elapse 100 boot))
    as (H1 & _); [reflexivity|].
  destruct (fallback_index_follows_clock count_fails (elapse (2 ^ 31) boot))
    as (H2 & _); [reflexivity|].
  split; [rewrite H1 | rewrite H2]; vm_compute; reflexivity.
Defined.

(** X6. Two captures whose count queries fail derive different paths
    whenever the second reads the clock later than the first and less than
    [2 ^ 32] milliseconds after it. *)
Theorem fallback_paths_differ (r1 r2 : Responses) (w1 w2 : World) :
  count_ok r1 = false ->
  count_ok r2 = false ->
  0 < (clock w2 + Z.of_nat (grab_ms r2)) - (clock w1 + Z.of_nat (grab_ms r1))
    < 2 ^ 32 ->
  target_path r1 w1 <> target_path r2 w2.
Proof.
  intros H1 H2 Hgap. rewrite !fallback_target by done.
  intros E. apply file_path_inj in E.
  apply (f_equal u32) in E. rewrite !u32_to_int in E.
  assert (u32 ((clock w2 + Z.of_nat (grab_ms r2))
               - (clock w1 + Z.of_nat (grab_ms r1))) = 0) as Hz.
  { unfold u32 in *. rewrite Zminus_mod, E, Z.sub_diag. reflexivity. }
  rewrite u32_small in Hz by lia. lia.
Qed.

Lemma fallback_paths_differ_witness :
  count_ok count_fails = false
  /\ 0 < (clock (elapse 141 boot) + Z.of_nat (grab_ms count_fails))
        - (clock (elapse 100 boot) + Z.of_nat (grab_ms count_fails)) < 2 ^ 32
  /\ target_path count_fails (elapse 100 boot)
     <> target_path count_fails (elapse 141 boot).
Proof.
  split; [reflexivity|]. split; [split; reflexivity|].
  apply (fallback_paths_differ count_fails count_fails
           (elapse 100 boot) (elapse 141 boot));
    [reflexivity | reflexivity | split; reflexivity].
Defined.

(** X7. On a card whose entries are numbered below their count, a session
    in which every count query succeeds stores its captures under the
    numbers that follow the count, one after the other: the first stored
    capture gets the count, the next one the count plus one, and so on;
    a capture that stores nothing uses up no number. *)
Theorem counting_session_numbers_up (cfg : Config)
    (steps : list (nat * Responses)) (w : World) :
  numbered_below_count (card w) ->
  Forall (fun step => count_ok step.2 = true) steps ->
  paths (session cfg steps w).1
  = (fun i : nat => file_path (Z.of_nat (size (card w)) + Z.of_nat i))
    <$> seq 0 (length (paths (session cfg steps w).1)).
Proof.
  revert w. induction steps as [|[g r] steps IH]; intros w Hnum Hall; [done|].
  apply Forall_cons in Hall as [Hcount Hall]. cbn in Hcount.
  destruct (numbered_below_count_step cfg r (elapse (Z.of_nat g) w) Hcount Hnum)
    as [Hfree Hnum'].
  specialize (IH _ Hnum' Hall). rewrite session_cons.
  set (w0 := elapse (Z.of_nat g) w) in *.
  set (rest := paths (session cfg steps (takePhoto cfg r w0)).1) in *.
  unfold paths. cbn [omap list_omap]. fold (paths (session cfg steps (takePhoto cfg r w0)).1).
  fold rest. rewrite status_cases.
  assert (target_path r w0 = file_path (Z.of_nat (size (card w)))) as Htp.
  { unfold target_path, count_result, file_index. rewrite Hcount.
    destruct (Z.ltb_spec (Z.of_nat (size (card w0))) 0); [lia | done]. }
  rewrite takePhoto_card in IH.
  destruct (fb_get r) as [fb|]; [destruct (open_ok r)|]; cbn [success_path].
  - rewrite map_size_insert_None in IH by done.
    cbn [length seq fmap list_fmap]. rewrite Htp, Z.add_0_r. f_equal.
    rewrite IH at 1. rewrite <- fmap_S_seq, <- list_fmap_compose.
    apply list_fmap_ext. intros _ i _. cbn. f_equal. lia.
  - exact IH.
  - exact IH.
Qed.

Lemma counting_session_numbers_up_witness :
  numbered_below_count (card boot)
  /\ Forall (fun step => count_ok step.2 = true)
       [(100%nat, all_well); (100%nat, open_fails); (100%nat, card_full)]
  /\ paths (session sketch_config
              [(100%nat, all_well); (100%nat, open_fails); (100%nat, card_full)]
              boot).1
     = ["/camera/0.jpg"; "/camera/1.jpg"].
Proof.
  assert (Forall (fun step : nat * Responses => count_ok step.2 = true)
            [(100%nat, all_well); (100%nat, open_fails); (100%nat, card_full)])
    as Hall by (repeat constructor).
  split; [exact boot_numbered_below_count|]. split; [exact Hall|].
  rewrite (counting_session_numbers_up sketch_config _ boot
             boot_numbered_below_count Hall).
  vm_compute. reflexivity.
Defined.

(** ** One call of the loop, and any number of them *)

Section Calls.

Context (cfg : Config) (btn : Z -> bool) (script : nat -> Responses).

(** The wait for release touches nothing but the clock and the log. *)
Lemma wait_release_keeps (w : World) :
  exists w', wait_release cfg btn wait_fuel (millis w) w = Some w'
             /\ shots w' = shots w /\ card w' = card w
             /\ fb_held w' = fb_held w /\ pins w' = pins w
             /\ clock w <= clock w' <= clock w + 2005.
Proof.
  destruct (wait_release_from cfg btn (clock w) wait_fuel w)
    as (k & w' & Hrun & Hclk & Hbound & _ & _ & Hp & Hc & Hs & Hf).
  { lia. }
  { change (Z.of_nat wait_fuel) with 402. lia. }
  exists w'. unfold millis. repeat split; try done; lia.
Qed.

(** What one call of [loop] does to the statics, the shot count, the
    frame buffers, the card and the clock. *)
Lemma loop_step (s : Statics) (w : World) :
  exists s' w',
    loop cfg btn script s w = Some (s', w')
    /\ last s' = btn (clock w)
    /\ fb_held w' = fb_held w
    /\ (forall p, card w' !! p = None -> card w !! p = None)
    /\ (fires cfg btn s w = true ->
        shots w' = S (shots w)
        /\ clock w + u32 (DEBOUNCE_MS cfg) <= clock w'
           <= clock w + busy_ms (script (shots w)) + 2005
              + u32 (DEBOUNCE_MS cfg))
    /\ (fires cfg btn s w = false ->
        shots w' = shots w /\ clock w' = clock w /\ card w' = card w).
Proof.
  unfold fires. destruct (btn (clock w)) eqn:Hb.
  { rewrite loop_released by done. eexists _, _. split; [reflexivity|].
    rewrite andb_false_r. cbn. repeat split; done. }
  destruct (last s) eqn:Hl.
  { rewrite loop_edge by done. eexists _, _. split; [reflexivity|].
    cbn. repeat split; done. }
  cbn [negb andb].
  destruct (Z.gtb_spec (sub32 (millis w) (edge s)) (u32 (DEBOUNCE_MS cfg)))
    as [Hout|Hin].
  - unfold loop, digitalRead. rewrite Hb, Hl.
    cbn [Bool.eqb HIGH LOW andb]. unfold millis in Hout |- *.
    cbn [clock emit shots].
    destruct (Z.gtb_spec (sub32 (u32 (clock w)) (edge s))
                (u32 (DEBOUNCE_MS cfg))) as [_|Hno]; [|lia].
    set (w0 := count_shot (emit (DigitalRead (BUTTON_PIN cfg) false) w)).
    destruct (wait_release_keeps (takePhoto cfg (script (shots w)) w0))
      as (w2 & Hrun & Hs & Hc & Hf & _ & Hclk).
    unfold millis in Hrun. rewrite Hrun.
    eexists _, _. split; [reflexivity|].
    cbn [last fb_held shots clock card delay elapse].
    rewrite Hs, Hc, Hf, takePhoto_shots, takePhoto_fb_held.
    rewrite takePhoto_clock in Hclk. cbn [clock w0 count_shot emit] in Hclk.
    pose proof (u32_range (DEBOUNCE_MS cfg)) as HD.
    split; [done|]. split; [done|]. split; [|split; [|done]].
    + intros p Hp. by apply takePhoto_keeps_entries in Hp.
    + intros _. split; [done|]. unfold busy_ms.
      destruct (fb_get _); [destruct (open_ok _)|]; lia.
  - rewrite loop_hold by done. eexists _, _. split; [reflexivity|].
    cbn. repeat split; done.
Qed.

(** X8. A call of [loop] takes a photo exactly when the previous poll and
    this one read pressed and the 32-bit counter shows more than
    [DEBOUNCE_MS] since the recorded edge; it never takes more than one.
    Either way it returns, and remembers the level it just read. *)
Theorem loop_fires_exactly_when (s : Statics) (w : World) :
  exists s' w',
    loop cfg btn script s w = Some (s', w')
    /\ last s' = btn (clock w)
    /\ shots w' = (if fires cfg btn s w then S (shots w) else shots w).
Proof.
  destruct (loop_step s w) as (s' & w' & Hrun & Hl & _ & _ & Hyes & Hno).
  exists s', w'. split; [exact Hrun|]. split; [exact Hl|].
  destruct (fires cfg btn s w); [by apply Hyes | by apply Hno].
Qed.

(** X9. A call of [loop] that takes no photo takes no time.  One that does
    keeps the caller for at least the tail delay and at most the time the
    capture blocks plus 2005 milliseconds of waiting plus the tail
    delay. *)
Theorem loop_call_duration (s : Statics) (w : World) :
  exists s' w',
    loop cfg btn script s w = Some (s', w')
    /\ (fires cfg btn s w = false -> clock w' = clock w)
    /\ (fires cfg btn s w = true ->
        clock w + u32 (DEBOUNCE_MS cfg) <= clock w'
        <= clock w + busy_ms (script (shots w)) + 2005
           + u32 (DEBOUNCE_MS cfg)).
Proof.
  destruct (loop_step s w) as (s' & w' & Hrun & _ & _ & _ & Hyes & Hno).
  exists s', w'. split; [exact Hrun|]. split.
  - intros H. by apply Hno.
  - intros H. by apply Hyes.
Qed.

(** X10. However the line behaves and however the polls are spaced, a
    run of the loop ends, and has taken at most one photo per call. *)
Theorem run_takes_at_most_one_per_call
    (gaps : list nat) (s : Statics) (w : World) :
  exists s' w',
    run cfg btn script gaps s w = Some (s', w')
    /\ (shots w <= shots w' <= shots w + length gaps)%nat.
Proof.
  revert s w. induction gaps as [|g gaps IH]; intros s w.
  { exists s, w. split; [reflexivity|]. cbn. lia. }
  destruct (loop_step s (elapse (Z.of_nat g) w))
    as (s1 & w1 & Hloop & _ & _ & _ & Hyes & Hno).
  destruct (IH s1 w1) as (s' & w' & Hrun & Hle).
  exists s', w'. cbn [run]. rewrite Hloop. split; [exact Hrun|].
  cbn [length].
  destruct (fires cfg btn s (elapse (Z.of_nat g) w)).
  - destruct Hyes as [Hs _]; [done|]. cbn [shots elapse] in Hs. lia.
  - destruct Hno as [Hs _]; [done|]. cbn [shots elapse] in Hs. lia.
Qed.

(** X11. No run of the loop leaks a frame buffer: after any number of
    calls the driver has as many buffers out as before. *)
Theorem run_keeps_frame_buffers
    (gaps : list nat) (s : Statics) (w : World) :
  exists s' w',
    run cfg btn script gaps s w = Some (s', w')
    /\ fb_held w' = fb_held w.
Proof.
  revert s w. induction gaps as [|g gaps IH]; intros s w.
  { by exists s, w. }
  destruct (loop_step s (elapse (Z.of_nat g) w))
    as (s1 & w1 & Hloop & _ & Hf & _).
  destruct (IH s1 w1) as (s' & w' & Hrun & Hf').
  exists s', w'. cbn [run]. rewrite Hloop. split; [exact Hrun|].
  by rewrite Hf', Hf.
Qed.

(** X12. No run of the loop removes an entry from the card: what is there
    before is there after (its contents may have been written over). *)
Theorem run_never_deletes
    (gaps : list nat) (s : Statics) (w : World) :
  exists s' w',
    run cfg btn script gaps s w = Some (s', w')
    /\ forall p, is_Some (card w !! p) -> is_Some (card w' !! p).
Proof.
  revert s w. induction gaps as [|g gaps IH]; intros s w.
  { by exists s, w. }
  destruct (loop_step s (elapse (Z.of_nat g) w))
    as (s1 & w1 & Hloop & _ & _ & Hkeep & _).
  destruct (IH s1 w1) as (s' & w' & Hrun & Hkeep').
  exists s', w'. cbn [run]. rewrite Hloop. split; [exact Hrun|].
  intros p Hp. apply Hkeep'. cbn [card elapse] in Hkeep.
  destruct (card w1 !! p) eqn:E; [done|].
  apply Hkeep in E. rewrite E in Hp. by destruct Hp.
Qed.

End Calls.

(** ** The wait, sample by sample *)

Section Samples.

Context (cfg : Config) (btn : Z -> bool) (script : nat -> Responses).

Lemma wait_release_until (c0 : Z) (k n : nat) (w : World) :
  (k < n)%nat ->
  0 <= clock w - c0 ->
  clock w - c0 + 5 * Z.of_nat k <= 2005 ->
  (forall j : nat, (j < k)%nat -> btn (clock w + 5 * Z.of_nat j) = LOW) ->
  btn (clock w + 5 * Z.of_nat k) = HIGH ->
  exists w',
    wait_release cfg btn n (u32 c0) w = Some w'
    /\ clock w' = clock w + 5 * Z.of_nat k
    /\ log w'
       = log w ++ wait_rounds (BUTTON_PIN cfg) (clock w) k
         ++ [(clock w + 5 * Z.of_nat k, DigitalRead (BUTTON_PIN cfg) HIGH)].
Proof.
  revert n w. induction k as [|k IH]; intros [|n] w Hn Hel Hbound Hlow Hhigh;
    try lia; cbn [wait_release]; unfold digitalRead.
  - rewrite Z.mul_0_r, Z.add_0_r in Hhigh. rewrite Hhigh.
    cbn [Bool.eqb LOW negb]. eexists. split; [reflexivity|]. cbn.
    rewrite Z.add_0_r. split; reflexivity.
  - pose proof (Hlow 0%nat ltac:(lia)) as H0.
    rewrite Z.mul_0_r, Z.add_0_r in H0. rewrite H0.
    cbn [Bool.eqb LOW negb].
    unfold esp_task_wdt_reset, millis. cbn [clock emit].
    rewrite sub32_elapsed by lia.
    destruct (Z.gtb_spec (clock w - c0) 2000) as [Hto|_]; [lia|].
    unfold delay. change (u32 5) with 5.
    destruct (IH n (elapse 5 (emit WdtReset
                (emit (DigitalRead (BUTTON_PIN cfg) false) w))))
      as (w' & Hrun & Hclk & Hlog); cbn [clock elapse emit]; try lia.
    { intros j Hj. replace (clock w + 5 + 5 * Z.of_nat j)
        with (clock w + 5 * Z.of_nat (S j)) by lia. apply Hlow. lia. }
    { replace (clock w + 5 + 5 * Z.of_nat k)
        with (clock w + 5 * Z.of_nat (S k)) by lia. exact Hhigh. }
    cbn [clock log elapse emit] in Hclk, Hlog.
    exists w'. split; [exact Hrun|]. split; [lia|].
    rewrite Hlog. cbn [wait_rounds]. rewrite <- !app_assoc.
    cbn [app]. do 6 f_equal. lia.
Qed.

(** X13. The wait for release samples the line every five milliseconds
    and returns at the first sample that reads released: if the samples
    before the [k]-th read pressed and the [k]-th, no later than 2005
    milliseconds in, reads released, the wait has reset the watchdog [k]
    times and ends right at that sample.  A line already released is not
    waited on at all. *)
Theorem wait_returns_at_first_release (k : nat) (w : World) :
  (k <= 401)%nat ->
  (forall j : nat, (j < k)%nat -> btn (clock w + 5 * Z.of_nat j) = LOW) ->
  btn (clock w + 5 * Z.of_nat k) = HIGH ->
  exists w',
    wait_release cfg btn wait_fuel (millis w) w = Some w'
    /\ clock w' = clock w + 5 * Z.of_nat k
    /\ since_t w w'
       = wait_rounds (BUTTON_PIN cfg) (clock w) k
         ++ [(clock w + 5 * Z.of_nat k, DigitalRead (BUTTON_PIN cfg) HIGH)].
Proof.
  intros Hk Hlow Hhigh.
  destruct (wait_release_until (clock w) k wait_fuel w)
    as (w' & Hrun & Hclk & Hlog); try done.
  { unfold wait_fuel. lia. }
  { lia. }
  { lia. }
  exists w'. split; [exact Hrun|]. split; [exact Hclk|].
  by apply since_t_app.
Qed.

(** X14. A press that outlasts the wait fires again: when a call of
    [loop] has taken a photo and the next call still reads pressed, that
    call takes another one at once, without a new edge and without a new
    debounce interval. *)
Theorem held_press_fires_again
    (t0 : Z) (g1 : nat) (s : Statics) (w : World) :
  last s = LOW ->
  edge s = u32 t0 ->
  btn (clock w + Z.of_nat g1) = LOW ->
  u32 (DEBOUNCE_MS cfg) < clock w + Z.of_nat g1 - t0 < 2 ^ 32 ->
  exists w1,
    run cfg btn script [g1] s w = Some (s, w1)
    /\ shots w1 = S (shots w)
    /\ forall g2 : nat,
         btn (clock w1 + Z.of_nat g2) = LOW ->
         clock w1 + Z.of_nat g2 - t0 < 2 ^ 32 ->
         exists w2,
           run cfg btn script [g2] s w1 = Some (s, w2)
           /\ shots w2 = S (S (shots w)).
Proof.
  intros Hl He Hb Hpast.
  pose proof (u32_range (DEBOUNCE_MS cfg)) as HD.
  assert ({| last := LOW; edge := edge s |} = s) as Hs
    by (destruct s; cbn in *; by subst).
  destruct (loop_fire cfg btn script s (elapse (Z.of_nat g1) w))
    as (w1 & Hfire & Hshots & Hclk); try done.
  { unfold millis. cbn [clock elapse]. rewrite He, sub32_elapsed by lia. lia. }
  rewrite Hs in Hfire. cbn [clock shots elapse] in Hshots, Hclk.
  exists w1. cbn [run]. rewrite Hfire. split; [reflexivity|].
  split; [exact Hshots|].
  intros g2 Hb2 Hwrap.
  destruct (loop_fire cfg btn script s (elapse (Z.of_nat g2) w1))
    as (w2 & Hfire2 & Hshots2 & _); try done.
  { unfold millis. cbn [clock elapse]. rewrite He, sub32_elapsed by lia. lia. }
  rewrite Hs in Hfire2. cbn [shots elapse] in Hshots2.
  exists w2. rewrite Hfire2. split; [reflexivity|]. by rewrite Hshots2, Hshots.
Qed.

End Samples.

Lemma wait_returns_at_first_release_witness :
  (3 <= 401)%nat
  /\ (forall j : nat, (j < 3)%nat ->
        press 0 12 (clock boot + 5 * Z.of_nat j) = LOW)
  /\ press 0 12 (clock boot + 5 * Z.of_nat 3) = HIGH
  /\ exists w',
       wait_release sketch_config (press 0 12) wait_fuel (millis boot) boot
       = Some w'
       /\ clock w' = 15
       /\ since_t boot w'
          = [(0, DigitalRead 47 LOW); (0, WdtReset);
             (5, DigitalRead 47 LOW); (5, WdtReset);
             (10, DigitalRead 47 LOW); (10, WdtReset);
             (15, DigitalRead 47 HIGH)].
Proof.
  assert (forall j : nat, (j < 3)%nat ->
            press 0 12 (clock boot + 5 * Z.of_nat j) = LOW) as Hlow.
  { intros [|[|[|j]]] Hj; try reflexivity. lia. }
  split; [lia|]. split; [exact Hlow|]. split; [reflexivity|].
  apply (wait_returns_at_first_release sketch_config (press 0 12) 3 boot);
    [lia | exact Hlow | reflexivity].
Defined.

Lemma held_press_fires_again_witness :
  last pressed_at_0 = LOW
  /\ edge pressed_at_0 = u32 0
  /\ stuck_low (clock boot + Z.of_nat 41) = LOW
  /\ u32 (DEBOUNCE_MS sketch_config) < clock boot + Z.of_nat 41 - 0 < 2 ^ 32
  /\ exists w1,
       run sketch_config stuck_low (fun _ => all_well) [41%nat]
         pressed_at_0 boot = Some (pressed_at_0, w1)
       /\ shots w1 = 1%nat.
Proof.
  split; [reflexivity|]. split; [reflexivity|]. split; [reflexivity|].
  split; [split; reflexivity|].
  destruct (held_press_fires_again sketch_config stuck_low (fun _ => all_well)
              0 41%nat pressed_at_0 boot)
    as (w1 & Hrun & Hshots & _);
    [reflexivity | reflexivity | reflexivity | split; reflexivity |].
  exists w1. split; [exact Hrun | exact Hshots].
Defined.

(** ** The indicator around a capture *)

(** X17. With an indicator line, a capture begins by switching it on and
    ends, on each of its exits, by switching it off: the first thing it
    does is drive the line low, the last is drive it high, and the line is
    high afterwards. *)
Theorem indicator_brackets_capture
    (cfg : Config) (r : Responses) (w : World) :
  0 <= LED_PIN cfg ->
  head (since w (takePhoto cfg r w)) = Some (DigitalWrite (LED_PIN cfg) LOW)
  /\ List.last (since w (takePhoto cfg r w)) WdtReset
     = DigitalWrite (LED_PIN cfg) HIGH
  /\ pins (takePhoto cfg r w) !! LED_PIN cfg = Some HIGH.
Proof.
  intros Hled. split; [|split]; [| |by apply takePhoto_indicator_idle].
  - rewrite takePhoto_events. unfold led_events.
    apply Z.leb_le in Hled. by rewrite Hled.
  - rewrite takePhoto_events. unfold led_events.
    apply Z.leb_le in Hled. rewrite Hled, app_assoc.
    apply List.last_last.
Qed.

Lemma indicator_brackets_capture_witness :
  0 <= LED_PIN with_led
  /\ head (since boot (takePhoto with_led open_fails boot))
     = Some (DigitalWrite 2 LOW)
  /\ List.last (since boot (takePhoto with_led open_fails boot)) WdtReset
     = DigitalWrite 2 HIGH
  /\ pins (takePhoto with_led open_fails boot) !! 2 = Some HIGH.
Proof.
  split; [cbn; lia|].
  apply (indicator_brackets_capture with_led open_fails boot). cbn. lia.
Defined.

(** ** Paths across a session, count and clock mixed *)

Lemma capture_ms_nonneg (r : Responses) : 0 <= capture_ms r.
Proof.
  unfold capture_ms. destruct (fb_get r); [destruct (open_ok r)|]; lia.
Qed.

Lemma session_ms_nonneg (steps : list (nat * Responses)) :
  0 <= session_ms steps.
Proof.
  induction steps as [|[g r] steps IH]; cbn [session_ms]; [lia|].
  pose proof (capture_ms_nonneg r). lia.
Qed.

Lemma takePhoto_takes_capture_ms (cfg : Config) (r : Responses) (w : World) :
  clock (takePhoto cfg r w) = clock w + capture_ms r.
Proof. rewrite takePhoto_clock. unfold capture_ms. lia. Qed.

(** Two readings of the clock less than a wrap apart give different
    indices. *)
Lemma to_int_differs (m0 m : Z) :
  0 < m - m0 < 2 ^ 32 -> to_int m0 <> to_int m.
Proof.
  intros Hgap E. apply (f_equal u32) in E. rewrite !u32_to_int in E.
  assert (u32 (m - m0) = 0) as Hz.
  { unfold u32 in *. rewrite Zminus_mod, E, Z.sub_diag. reflexivity. }
  rewrite u32_small in Hz by lia. lia.
Qed.

(** When the count query succeeds the index is the number of entries. *)
Lemma count_target (r : Responses) (w : World) :
  count_ok r = true ->
  target_path r w = file_path (Z.of_nat (size (card w))).
Proof.
  intros Hcount. unfold target_path, count_result, file_index.
  rewrite Hcount. cbn [card elapse].
  destruct (Z.ltb_spec (Z.of_nat (size (card w))) 0); [lia | done].
Qed.

Section Mixed.

Context (cfg : Config) (lo hi : Z).

Lemma mixed_session_paths (steps : list (nat * Responses)) (w : World) :
  lo <= Z.of_nat (size (card w)) ->
  Z.of_nat (size (card w)) + Z.of_nat (length steps) <= hi ->
  (forall k, Z.of_nat (size (card w)) <= k < hi ->
             card w !! file_path k = None) ->
  Forall (fun step => (0 < step.1)%nat) steps ->
  session_ms steps < 2 ^ 32 ->
  Forall (fun i => i < lo \/ hi <= i) (fallback_indices (clock w) steps) ->
  NoDup (paths (session cfg steps w).1)
  /\ forall p, p ∈ paths (session cfg steps w).1 ->
               exists k, p = file_path k /\ index_of_session lo hi steps w k.
Proof.
  revert w. induction steps as [|[g r] steps IH];
    intros w Hlo Hhi Hfree Hgap Hspan Hfb.
  { split; [constructor|]. intros p Hp. by apply elem_of_nil in Hp. }
  apply Forall_cons in Hgap as [Hg Hgap]. cbn [fst] in Hg.
  cbn [session_ms] in Hspan. cbn [fallback_indices] in Hfb.
  apply Forall_app in Hfb as [Hhere Hfb].
  cbn [length] in Hhi. rewrite Nat2Z.inj_succ in Hhi.
  pose proof (capture_ms_nonneg r) as Hcap.
  pose proof (session_ms_nonneg steps) as Hrest.
  set (w0 := elapse (Z.of_nat g) w) in *.
  assert (clock (takePhoto cfg r w0) = clock w + Z.of_nat g + capture_ms r)
    as Hclk by (by rewrite takePhoto_takes_capture_ms).
  rewrite <- Hclk in Hfb.
  rewrite session_cons. fold w0. unfold paths. cbn [omap list_omap].
  fold (paths (session cfg steps (takePhoto cfg r w0)).1).
  destruct (success_path (status cfg r w0)) as [p0|] eqn:Hp0.
  - apply takePhoto_stores in Hp0 as (-> & [fb Hget] & Hopen & _).
    pose proof (takePhoto_card cfg r w0) as Hcard.
    rewrite Hget, Hopen in Hcard. cbn [card w0 elapse] in Hcard.
    rewrite Hget in Hhere.
    destruct (count_ok r) eqn:Hcount.
    + (* the count hands out the number of entries *)
      rewrite (count_target r w0 Hcount) in Hcard |- *. cbn [card w0 elapse] in Hcard |- *.
      set (c := Z.of_nat (size (card w))) in *.
      assert (c = Z.of_nat (size (card w))) as Hcdef by reflexivity.
      clearbody c.
      assert (card w !! file_path c = None) as Hc by (apply Hfree; lia).
      assert (Z.of_nat (size (card (takePhoto cfg r w0))) = c + 1) as Hsize.
      { rewrite Hcard, map_size_insert_None by done. lia. }
      unfold index_of_session in *.
      destruct (IH (takePhoto cfg r w0)) as [Hnd Hidx]; try done.
      { lia. }
      { lia. }
      { intros k Hk. rewrite Hcard, lookup_insert_ne.
        - apply Hfree. lia.
        - intros E. apply file_path_inj in E. lia. }
      { lia. }
      split.
      * apply NoDup_cons. split; [|exact Hnd].
        intros Hin. apply Hidx in Hin as (k & E & [Hk | (m & -> & _ & Hout)]);
          apply file_path_inj in E; lia.
      * intros p Hp. apply elem_of_cons in Hp as [-> | Hp].
        { exists c. split; [done|]. left. lia. }
        apply Hidx in Hp as (k & -> & [Hk | (m & -> & Hm & Hout)]).
        { exists k. split; [done|]. left. lia. }
        eexists. split; [done|]. right. exists m. split; [done|].
        cbn [session_ms]. split; [lia | done].
    + (* the clock hands out its reading *)
      rewrite Forall_singleton in Hhere.
      rewrite (fallback_target r w0 Hcount) in Hcard |- *.
      cbn [clock w0 elapse] in Hcard |- *.
      set (m0 := clock w + Z.of_nat g + Z.of_nat (grab_ms r)) in *.
      assert (m0 = clock w + Z.of_nat g + Z.of_nat (grab_ms r)) as Hm0def
        by reflexivity.
      clearbody m0.
      assert (m0 <= clock w + Z.of_nat g + capture_ms r) as Hm0.
      { unfold capture_ms. rewrite Hget, Hopen. lia. }
      assert (Z.of_nat (size (card w))
              <= Z.of_nat (size (card (takePhoto cfg r w0)))
              <= Z.of_nat (size (card w)) + 1) as Hsize.
      { rewrite Hcard, map_size_insert.
        destruct (card w !! file_path (to_int m0)); cbn; lia. }
      unfold index_of_session in *.
      destruct (IH (takePhoto cfg r w0)) as [Hnd Hidx]; try done.
      { lia. }
      { lia. }
      { intros k Hk. rewrite Hcard, lookup_insert_ne.
        - apply Hfree. lia.
        - intros E. apply file_path_inj in E. lia. }
      { lia. }
      split.
      * apply NoDup_cons. split; [|exact Hnd].
        intros Hin. apply Hidx in Hin as (k & E & [Hk | (m & -> & Hm & _)]);
          apply file_path_inj in E.
        { lia. }
        revert E. apply to_int_differs. lia.
      * intros p Hp. apply elem_of_cons in Hp as [-> | Hp].
        { eexists. split; [done|]. right. exists m0. split; [done|].
          cbn [session_ms]. split; [lia | done]. }
        apply Hidx in Hp as (k & -> & [Hk | (m & -> & Hm & Hout)]).
        { exists k. split; [done|]. left. lia. }
        eexists. split; [done|]. right. exists m. split; [done|].
        cbn [session_ms]. split; [lia | done].
  - (* nothing stored: the card is as it was *)
    assert (card (takePhoto cfg r w0) = card w) as Hcard.
    { rewrite takePhoto_card. rewrite status_cases in Hp0.
      destruct (fb_get r); [destruct (open_ok r)|]; done. }
    unfold index_of_session in *.
    destruct (IH (takePhoto cfg r w0)) as [Hnd Hidx]; try done.
    { by rewrite Hcard. }
    { rewrite Hcard. lia. }
    { intros k Hk. rewrite Hcard in Hk |- *. by apply Hfree. }
    { lia. }
    split; [exact Hnd|].
    intros p Hp. apply Hidx in Hp as (k & -> & [Hk | (m & -> & Hm & Hout)]).
    { exists k. split; [done|]. left. rewrite Hcard in Hk. lia. }
    eexists. split; [done|]. right. exists m. split; [done|].
    cbn [session_ms]. split; [lia | done].
Qed.

End Mixed.

(** C5, as the code has it.  Across the captures of one session, however
    many and whether they take their index from the count query or from
    the clock, the paths of those reported as stored are pairwise distinct
    provided that
    - at the start no entry of the card is numbered at or above the number
      of entries,
    - no index the clock hands out during the session is one of the
      numbers the count can hand out during it, which are the number of
      entries at the start and the next ones, as many as there are
      captures,
    - time passes between one capture and the next, and the session is
      shorter than the wrap of the millisecond counter. *)
Theorem session_paths_distinct (cfg : Config)
    (steps : list (nat * Responses)) (w : World) :
  numbered_below_count (card w) ->
  Forall (fun step => (0 < step.1)%nat) steps ->
  session_ms steps < 2 ^ 32 ->
  Forall (fun i => i < Z.of_nat (size (card w))
                   \/ Z.of_nat (size (card w)) + Z.of_nat (length steps) <= i)
    (fallback_indices (clock w) steps) ->
  NoDup (paths (session cfg steps w).1).
Proof.
  intros Hnum Hgap Hspan Hfb.
  destruct (mixed_session_paths cfg (Z.of_nat (size (card w)))
              (Z.of_nat (size (card w)) + Z.of_nat (length steps)) steps w)
    as [Hnd _]; [lia | lia | | exact Hgap | exact Hspan | exact Hfb | exact Hnd].
  intros k Hk. apply Hnum. lia.
Qed.

Lemma session_paths_distinct_witness :
  numbered_below_count (card boot)
  /\ Forall (fun step : nat * Responses => (0 < step.1)%nat)
       [(100%nat, all_well); (100%nat, count_fails); (100%nat, all_well)]
  /\ session_ms
       [(100%nat, all_well); (100%nat, count_fails); (100%nat, all_well)]
     < 2 ^ 32
  /\ fallback_indices (clock boot)
       [(100%nat, all_well); (100%nat, count_fails); (100%nat, all_well)]
     = [280]
  /\ paths (session sketch_config
              [(100%nat, all_well); (100%nat, count_fails); (100%nat, all_well)]
              boot).1
     = ["/camera/0.jpg"; "/camera/280.jpg"; "/camera/2.jpg"]
  /\ NoDup (paths (session sketch_config
              [(100%nat, all_well); (100%nat, count_fails); (100%nat, all_well)]
              boot).1).
Proof.
  assert (Forall (fun step : nat * Responses => (0 < step.1)%nat)
            [(100%nat, all_well); (100%nat, count_fails); (100%nat, all_well)])
    as Hgap by (repeat constructor; cbn; lia).
  assert (session_ms
            [(100%nat, all_well); (100%nat, count_fails); (100%nat, all_well)]
          < 2 ^ 32) as Hspan by reflexivity.
  split; [exact boot_numbered_below_count|]. split; [exact Hgap|].
  split; [exact Hspan|]. split; [reflexivity|].
  split; [vm_compute; reflexivity|].
  apply (session_paths_distinct sketch_config _ boot
           boot_numbered_below_count Hgap Hspan).
  apply Forall_singleton. right. vm_compute. discriminate.
Defined.
